(** * BuildHub: the repository fetcher, build-folder locator and archiver
  of [github_builder_app.py], embedded and verified.

  Python [str] values are byte strings (UTF-8), so that comparing two
  of them byte by byte is Python's code-point order; a directory tree is
  an inductive type; the functions that touch the disk, the session or
  the page are written in a small state-and-exception monad in which a
  raised exception keeps the mutations made before it. *)

From Stdlib Require Import Init.Byte Strings.Ascii Strings.String.
From stdpp Require Import strings list sorting gmap.

Local Open Scope string_scope.
Local Open Scope list_scope.

(** ** Python string operations used by the program *)

Module Text.

Definition slash : ascii := "/"%char.

(** [s.split(sep)] for a one-character separator: every occurrence
    cuts, empty pieces are kept, the result is never empty. *)
Fixpoint split (sep : ascii) (s : string) : list string :=
  match s with
  | "" => [""]
  | String c s' =>
      if decide (c = sep) then "" :: split sep s'
      else match split sep s' with
           | [] => [String c ""]
           | w :: ws => String c w :: ws
           end
  end.

(** [s.rstrip(c)]: drop the trailing occurrences of [c]. *)
Fixpoint rstrip (c : ascii) (s : string) : string :=
  match s with
  | "" => ""
  | String a s' =>
      match rstrip c s' with
      | "" => if decide (a = c) then "" else String a ""
      | r => String a r
      end
  end.

(** [sep.join(parts)] *)
Fixpoint join (sep : string) (parts : list string) : string :=
  match parts with
  | [] => ""
  | [p] => p
  | p :: ps => p +:+ sep +:+ join sep ps
  end.

(** [c in s] *)
Fixpoint contains (c : ascii) (s : string) : bool :=
  match s with
  | "" => false
  | String a s' => bool_decide (a = c) || contains c s'
  end.

(** [s.startswith(p)] *)
Fixpoint startswith (p s : string) : bool :=
  match p, s with
  | "", _ => true
  | String a p', String b s' => bool_decide (a = b) && startswith p' s'
  | String _ _, "" => false
  end.

(** [s.endswith(c)] for a character [c]. *)
Fixpoint endswith (c : ascii) (s : string) : bool :=
  match s with
  | "" => false
  | String a "" => bool_decide (a = c)
  | String _ s' => endswith c s'
  end.

(** The byte [c] lies between [lo] and [hi]. *)
Definition byte_in (lo hi : N) (c : ascii) : bool :=
  ((lo <=? N_of_ascii c) && (N_of_ascii c <=? hi))%N.

(** A continuation byte, [10xxxxxx]. *)
Definition cont (c : ascii) : bool := byte_in 128 191 c.

(** The bytes are well-formed UTF-8, as Python's strict codec has it: no
    overlong form, no surrogate, nothing above U+10FFFF. A file name
    that is such reaches the program as the [str] it encodes, and
    [name.encode('utf-8')] gives the bytes back; any other name reaches
    it with escaped bytes, which the codec refuses to encode. *)
Fixpoint utf8_valid (s : string) : bool :=
  match s with
  | "" => true
  | String b0 s1 =>
      if byte_in 0 127 b0 then utf8_valid s1
      else
        match s1 with
        | "" => false
        | String b1 s2 =>
            if byte_in 194 223 b0 then cont b1 && utf8_valid s2
            else
              match s2 with
              | "" => false
              | String b2 s3 =>
                  if byte_in 224 239 b0 then
                    (if byte_in 224 224 b0 then byte_in 160 191 b1
                     else if byte_in 237 237 b0 then byte_in 128 159 b1
                     else cont b1)
                    && cont b2 && utf8_valid s3
                  else
                    match s3 with
                    | "" => false
                    | String b3 s4 =>
                        byte_in 240 244 b0
                        && (if byte_in 240 240 b0 then byte_in 144 191 b1
                            else if byte_in 244 244 b0 then byte_in 128 143 b1
                            else cont b1)
                        && cont b2 && cont b3 && utf8_valid s4
                    end
              end
        end
  end.

(** [s.split('/')[-1]]: the index never fails since [split] returns at
    least one piece (lemma [split_last_is_Some]). *)
Definition last_segment (s : string) : string :=
  default "" (last (split slash s)).

End Text.


(** ** [pathlib] paths

    A path is the tuple that [PurePosixPath.parts] shows: the names in
    order, with the root ([/], or [//] for exactly two leading slashes)
    as first part when the path is absolute. *)

Module Path.
Import Text.

Abbreviation path := (list string).

Definition anchor_of (s : string) : string :=
  if startswith "//" s && negb (startswith "///" s) then "//"
  else if startswith "/" s then "/"
  else "".

(** The names of a segment: empty pieces and [.] are dropped, [..] is
    kept. *)
Definition components (s : string) : path :=
  filter (λ c, c ≠ "" ∧ c ≠ ".") (split slash s).

(** [Path(s)] *)
Definition parse (s : string) : path :=
  match anchor_of s with
  | "" => components s
  | a => a :: components s
  end.

(** [p / s]: an absolute segment replaces [p]. *)
Definition div (p : path) (s : string) : path :=
  if startswith "/" s then parse s else p ++ parse s.

Definition is_anchor (c : string) : bool :=
  bool_decide (c = "/" ∨ c = "//").

(** [str(p)] *)
Definition str (p : path) : string :=
  match p with
  | [] => "."
  | a :: rest => if is_anchor a then a +:+ join "/" rest else join "/" p
  end.

(** [p.parent] *)
Definition parent (p : path) : path := take (length p - 1) p.

(** [p.relative_to(base)]: [None] stands for the [ValueError] raised
    when [base] is not a leading part of [p]. *)
Fixpoint relative_to (p base : path) : option path :=
  match base, p with
  | [], _ => Some p
  | b :: base', x :: p' => if decide (x = b) then relative_to p' base' else None
  | _ :: _, [] => None
  end.

End Path.

(** ** The directory tree

    The store is the tree below the working directory: every path the
    program builds is relative ([WORKSPACE_DIR] is [Path("workspace")]).
    A node is a regular file with its bytes or a directory with its
    entries in listing order; symbolic links and special files are not
    modelled. *)

Module Fs.
Import Text Path.

#[warnings="-register-all"]
Inductive node : Type :=
| File (data : list byte)
| Dir (entries : list (string * node)).

(** *** Directory entries by name *)

Fixpoint assoc_get {V} (k : string) (l : list (string * V)) : option V :=
  match l with
  | [] => None
  | (k', v) :: l' => if decide (k' = k) then Some v else assoc_get k l'
  end.

Definition assoc_del {V} (k : string) (l : list (string * V)) : list (string * V) :=
  filter (λ e, e.1 ≠ k) l.

Fixpoint assoc_set {V} (k : string) (v : V) (l : list (string * V)) : list (string * V) :=
  match l with
  | [] => [(k, v)]
  | (k', v') :: l' =>
      if decide (k' = k) then (k, v) :: l' else (k', v') :: assoc_set k v l'
  end.

(** *** Reading *)

Fixpoint lookup (n : node) (p : path) : option node :=
  match p with
  | [] => Some n
  | name :: rest =>
      match n with
      | Dir es =>
          match assoc_get name es with
          | Some c => lookup c rest
          | None => None
          end
      | File _ => None
      end
  end.

(** [p.exists()] *)
Definition exists_ (n : node) (p : path) : bool :=
  match lookup n p with Some _ => true | None => false end.

(** [p.is_dir()] *)
Definition is_dir (n : node) (p : path) : bool :=
  match lookup n p with Some (Dir _) => true | _ => false end.

(** The bytes of the regular file at [p], if there is one. *)
Definition file_at (n : node) (p : path) : option (list byte) :=
  match lookup n p with Some (File d) => Some d | _ => None end.

(** Some leading part of [p] is a regular file, so that nothing can exist
    at [p] and the system answers ENOTDIR. *)
Fixpoint blocked (n : node) (p : path) : bool :=
  match p with
  | [] => false
  | name :: rest =>
      match n with
      | File _ => true
      | Dir es =>
          match assoc_get name es with
          | Some c => blocked c rest
          | None => false
          end
      end
  end.

(** Two paths part ways: neither leads to the other. *)
Definition apart (p q : path) : Prop := ¬ p `prefix_of` q ∧ ¬ q `prefix_of` p.

(** *** Writing *)

(** Remove what is at [p], which is not the root. *)
Fixpoint remove (p : path) (n : node) : node :=
  match p, n with
  | [name], Dir es => Dir (assoc_del name es)
  | name :: rest, Dir es =>
      match assoc_get name es with
      | Some c => Dir (assoc_set name (remove rest c) es)
      | None => n
      end
  | _, _ => n
  end.

(** [q] is a proper leading part of [p]. *)
Definition below (q p : path) : Prop := ∃ r, r ≠ [] ∧ p = q ++ r.

(** What is left once [p] has been cleared: the tree without it. *)
Definition cleared (n : node) (p : path) : node :=
  if exists_ n p then remove p n else n.

(** Place [new] at [p], replacing what is there and creating the missing
    directories on the way; [None] when a leading part is a regular
    file. *)
Fixpoint put (p : path) (new : node) (n : node) : option node :=
  match p with
  | [] => Some new
  | name :: rest =>
      match n with
      | Dir es =>
          c' ← put rest new (default (Dir []) (assoc_get name es));
          Some (Dir (assoc_set name c' es))
      | File _ => None
      end
  end.

(** *** Well-formed trees: what a real directory listing satisfies *)

(** A directory entry is named by a string other than the empty one,
    [.] and [..], that holds neither a slash nor a zero byte. *)
Definition valid_name (s : string) : bool :=
  bool_decide (s ≠ "" ∧ s ≠ "." ∧ s ≠ "..") && negb (contains slash s)
  && negb (contains "000"%char s).

Fixpoint wf (n : node) : bool :=
  match n with
  | File _ => true
  | Dir es =>
      bool_decide (NoDup es.*1) && forallb (λ e, valid_name e.1 && wf e.2) es
  end.

(** *** [os.walk]

    Top-down: the directory itself with the names of its sub-directories
    and of its other entries, then each sub-directory in turn. Walking
    something that is not a directory yields nothing. *)

Definition is_dir_node (n : node) : bool :=
  match n with Dir _ => true | File _ => false end.

Definition dirnames (es : list (string * node)) : list string :=
  (filter (λ e, is_dir_node e.2 = true) es).*1.

Definition filenames (es : list (string * node)) : list string :=
  (filter (λ e, is_dir_node e.2 = false) es).*1.

Fixpoint walk_node (top : path) (n : node) : list (path * list string * list string) :=
  match n with
  | File _ => []
  | Dir es =>
      (top, dirnames es, filenames es)
        :: flat_map (λ e, walk_node (div top e.1) e.2) es
  end.

(** The regular files of a tree with their paths, each path prefixed
    with [rel]: those of the directory itself, then those of each entry
    in turn. *)
Definition local_files (rel : path) (es : list (string * node)) : list (path * list byte) :=
  omap (λ e, match e.2 with
             | File d => Some (rel ++ [e.1], d)
             | Dir _ => None
             end) es.

Fixpoint files_under (rel : path) (n : node) : list (path * list byte) :=
  match n with
  | File _ => []
  | Dir es =>
      local_files rel es ++ flat_map (λ e, files_under (rel ++ [e.1]) e.2) es
  end.

Definition os_walk (root : node) (top : path) : list (path * list string * list string) :=
  match lookup root top with
  | Some n => walk_node top n
  | None => []
  end.

End Fs.

(** ** Exceptions, the world and the monad *)

Module Py.
Import Fs.

Inductive exn_class : Type :=
| GitCommandError
| NotADirectoryError
| IsADirectoryError
| FileNotFoundError
| OSError
| KeyError
| ValueError
| AttributeError
| AssertionError
| UnicodeEncodeError
| FileExistsError.

#[global] Instance exn_class_eq_dec : EqDecision exn_class.
Proof. solve_decision. Defined.

(** An exception: its class and what [str(e)] shows. *)
Record exn : Type := Exn { exn_cls : exn_class; exn_msg : string }.

Inductive outcome (A : Type) : Type :=
| Ok (a : A)
| Raise (e : exn).
Arguments Ok {A} a.
Arguments Raise {A} e.

(** [st.session_state]: an attribute that was never assigned is [None]. *)
Record session_state : Type := Session {
  ss_branches : option (list string);
  ss_selected_branch : option (option string)
}.

Inductive level : Type := Info | Success | Warning | Error.

(** What the page shows: the status lines and the download button. *)
Inductive element : Type :=
| Message (l : level) (text : string)
| DownloadButton (label : string) (data : list byte) (file_name : string).

Record world : Type := World {
  fs : node;
  session : session_state;
  page : list element
}.

Definition M (A : Type) : Type := world → outcome A * world.

Definition ret {A} (a : A) : M A := λ w, (Ok a, w).

Definition bind {A B} (c : M A) (k : A → M B) : M B :=
  λ w, match c w with
       | (Ok a, w') => k a w'
       | (Raise e, w') => (Raise e, w')
       end.

Definition raise {A} (e : exn) : M A := λ w, (Raise e, w).

(** [try: c  except <classes>: h]: the handler sees the world as the
    failed body left it. *)
Definition try_except {A} (c : M A) (catches : exn_class → bool) (h : exn → M A) : M A :=
  λ w, match c w with
       | (Raise e, w') => if catches (exn_cls e) then h e w' else (Raise e, w')
       | r => r
       end.

Definition with_fs (n : node) (w : world) : world :=
  {| fs := n; session := session w; page := page w |}.

Definition get_fs : M node := λ w, (Ok (fs w), w).

Definition set_fs (n : node) : M unit := λ w, (Ok (), with_fs n w).

Definition get_session : M session_state := λ w, (Ok (session w), w).

Definition set_session (s : session_state) : M unit :=
  λ w, (Ok (), {| fs := fs w; session := s; page := page w |}).

Definition show (e : element) : M unit :=
  λ w, (Ok (), {| fs := fs w; session := session w; page := page w ++ [e] |}).

Definition lift {A} (r : outcome A) : M A := λ w, (r, w).

(** The world with another session. *)
Definition with_session (s : session_state) (w : world) : world :=
  {| fs := fs w; session := s; page := page w |}.

End Py.

Declare Scope py_scope.
Delimit Scope py_scope with py.
Notation "'let*' x ':=' c 'in' k" := (Py.bind c (λ x, k))
  (at level 10, x name, c at level 100, k at level 200) : py_scope.
Notation "c ;;; k" := (Py.bind c (λ _, k))
  (at level 100, right associativity) : py_scope.

(** ** The program *)

Module App.
Import Text Path Fs Py.
Local Open Scope py_scope.

(** *** External collaborators

    What [Repo.clone_from] gives back: the content it leaves in the
    destination (work tree and [.git]) and what reading
    [repo.remote().refs] yields, the names of the remote references
    ([origin/main], [origin/HEAD], ...) or an exception. A failed clone
    may leave a partial directory behind. *)

Record repo : Type := Repo {
  worktree : list (string * node);
  remote_refs : outcome (list string)
}.

Inductive clone_result : Type :=
| Cloned (r : repo)
| CloneFailed (msg : string) (residue : option node).

Definition zip_entry : Type := string * list byte.

(** The version-control client, by URL, [branch=] and [depth=]; the
    DEFLATE codec; the byte layout of a zip container. *)
Record collaborators : Type := Collaborators {
  git_clone : string → option string → option nat → clone_result;
  deflate : list byte → list byte;
  inflate : list byte → list byte;
  zip_container : list zip_entry → list byte
}.

(** *** Constants *)

Definition WORKSPACE_DIR : path := parse "workspace".

Definition BUILD_DIRS : gmap string (list string) :=
  {[ "UI" := ["build"; "dist"; "out"];
     "Microservice" := ["target"; "app"; "output"] ]}.

(** *** File operations of the standard library *)

Definition path_exists (p : path) : M bool :=
  let* n := get_fs in ret (exists_ n p).

Definition path_is_dir (p : path) : M bool :=
  let* n := get_fs in ret (is_dir n p).

(** [shutil.rmtree(p)]; on the working directory itself the content goes
    and the final [rmdir] fails. *)
Definition rmtree (p : path) : M unit :=
  let* n := get_fs in
  match p with
  | [] => set_fs (Dir []) ;;; raise (Exn OSError (str p))
  | _ =>
      match lookup n p with
      | Some (Dir _) => set_fs (remove p n)
      | Some (File _) => raise (Exn NotADirectoryError (str p))
      | None => raise (Exn FileNotFoundError (str p))
      end
  end.

(** [open(p, 'wb')], write, close: creates or truncates the file. *)
Definition write_file (p : path) (data : list byte) : M unit :=
  let* n := get_fs in
  match lookup n p with
  | Some (Dir _) => raise (Exn IsADirectoryError (str p))
  | _ =>
      if is_dir n (parent p) then
        match put p (File data) n with
        | Some n' => set_fs n'
        | None => raise (Exn OSError (str p))
        end
      else if blocked n p then raise (Exn NotADirectoryError (str p))
      else raise (Exn FileNotFoundError (str p))
  end.

(** [open(p, 'rb').read()] *)
Definition read_file (p : path) : M (list byte) :=
  let* n := get_fs in
  match lookup n p with
  | Some (File d) => ret d
  | Some (Dir _) => raise (Exn IsADirectoryError (str p))
  | None => raise (Exn FileNotFoundError (str p))
  end.

(** [sorted(set(l))] *)
Definition sorted_set (l : list string) : list string :=
  merge_sort String.le (elements (list_to_set l : gset string)).

(** Every regular file of the tree has a relative path that the zip
    writer can encode. *)
Definition names_encodable (n : node) : bool :=
  forallb (λ f, utf8_valid (str f.1)) (files_under [] n).

Section Program.
Context (env : collaborators).

(** [Repo.clone_from(url, dest, branch=..., depth=...)]: git refuses a
    destination that exists and is not an empty directory. *)
Definition occupied (n : node) (dest : path) : bool :=
  match lookup n dest with
  | None | Some (Dir []) => false
  | Some _ => true
  end.

Definition clone_from (url : string) (dest : path)
    (branch : option string) (depth : option nat) : M repo :=
  let* n := get_fs in
  if occupied n dest then
    raise (Exn GitCommandError "destination path already exists and is not an empty directory")
  else
    match git_clone env url branch depth with
    | Cloned r =>
        match put dest (Dir (worktree r)) n with
        | Some n' => set_fs n' ;;; ret r
        | None => raise (Exn GitCommandError "could not create work tree dir")
        end
    | CloneFailed msg residue =>
        (match residue with
         | Some partial =>
             match put dest partial n with
             | Some n' => set_fs n'
             | None => ret ()
             end
         | None => ret ()
         end) ;;;
        raise (Exn GitCommandError msg)
    end.

(** *** [clone_repo] *)

Definition clone_repo (repo_url : string) (dest_path : path) (branch : string) : M unit :=
  let* e := path_exists dest_path in
  (if e then rmtree dest_path else ret ()) ;;;
  let* _ := clone_from repo_url dest_path (Some branch) None in
  ret ().

(** *** [get_branches] *)

Definition get_branches (repo_url : string) : M (list string) :=
  let tmp_path := div WORKSPACE_DIR "temp_repo" in
  let* e := path_exists tmp_path in
  (if e then rmtree tmp_path else ret ()) ;;;
  let* repo := clone_from repo_url tmp_path None (Some 1) in
  let* refs := lift (remote_refs repo) in
  let branches := last_segment <$> refs in
  rmtree tmp_path ;;;
  ret (sorted_set branches).

(** *** [zip_directory]

    [zipf.write(file_path, arcname)] stores a regular file under the
    name [str(arcname)] with its deflated bytes, and a directory as an
    empty entry whose name ends in a slash. The member header holds the
    name encoded, so a name that is not well-formed UTF-8 raises
    [UnicodeEncodeError] and nothing is stored for it. *)

(** The archive member a regular file gives. *)
Definition member_of (f : path * list byte) : zip_entry :=
  (str f.1, deflate env f.2).

Definition zip_write (n : node) (file_path arcname : path) : outcome zip_entry :=
  match lookup n file_path with
  | Some (File d) =>
      if utf8_valid (str arcname) then Ok (str arcname, deflate env d)
      else Raise (Exn UnicodeEncodeError (str arcname))
  | Some (Dir _) =>
      if utf8_valid (str arcname) then Ok (str arcname +:+ "/", [])
      else Raise (Exn UnicodeEncodeError (str arcname))
  | None => Raise (Exn FileNotFoundError (str file_path))
  end.

(** A summary of the two loops below, used to state what they write
    (lemma [zip_members] shows they compute it): of the regular files
    [L] of the source, in walk order, each becomes a member after those
    written so far, until a name cannot be encoded. *)
Fixpoint write_all (L : list (path * list byte)) (acc : list zip_entry)
    : list zip_entry * option exn :=
  match L with
  | [] => (acc, None)
  | f :: rest =>
      if utf8_valid (str f.1) then write_all rest (acc ++ [member_of f])
      else (acc, Some (Exn UnicodeEncodeError (str f.1)))
  end.

(** The inner loop, [for file in files], on the entries written so far:
    what has been written and the exception that stopped the loop, if
    any. *)
Fixpoint zip_files (n : node) (source_dir root : path) (files : list string)
    (acc : list zip_entry) : list zip_entry * option exn :=
  match files with
  | [] => (acc, None)
  | file :: rest =>
      let file_path := div root file in
      match relative_to file_path source_dir with
      | None => (acc, Some (Exn ValueError (str file_path)))
      | Some arcname =>
          match zip_write n file_path arcname with
          | Ok entry => zip_files n source_dir root rest (acc ++ [entry])
          | Raise e => (acc, Some e)
          end
      end
  end.

(** The outer loop, [for root, _, files in os.walk(source_dir)]. *)
Fixpoint zip_walk (n : node) (source_dir : path)
    (dirs : list (path * list string * list string))
    (acc : list zip_entry) : list zip_entry * option exn :=
  match dirs with
  | [] => (acc, None)
  | (root, _, files) :: rest =>
      match zip_files n source_dir root files acc with
      | (acc', None) => zip_walk n source_dir rest acc'
      | stopped => stopped
      end
  end.

(** Opening the archive for writing creates or truncates [zip_path];
    leaving the [with] block writes the container, also when the body
    raised. The tree is read as it is once the archive is open. *)
Definition zip_directory (source_dir zip_path : path) : M unit :=
  write_file zip_path [] ;;;
  let* n := get_fs in
  let written := zip_walk n source_dir (os_walk n source_dir) [] in
  write_file zip_path (zip_container env written.1) ;;;
  match written.2 with
  | Some e => raise e
  | None => ret ()
  end.

End Program.

(** *** [find_build_dir] *)

(** [BUILD_DIRS[project_type]] *)
Definition build_dirs (project_type : string) : M (list string) :=
  match BUILD_DIRS !! project_type with
  | Some folders => ret folders
  | None => raise (Exn KeyError project_type)
  end.

Fixpoint first_build_dir (repo_path : path) (folders : list string) : M (option path) :=
  match folders with
  | [] => ret None
  | folder :: rest =>
      let candidate := div repo_path folder in
      let* e := path_exists candidate in
      let* d := (if e then path_is_dir candidate else ret false) in
      if d then ret (Some candidate) else first_build_dir repo_path rest
  end.

Definition find_build_dir (repo_path : path) (project_type : string) : M (option path) :=
  let* folders := build_dirs project_type in
  first_build_dir repo_path folders.

(** *** The page

    One run of the script: the widgets return what the user entered.
    A button is true only in the run its own click triggered, so at most
    one is; the branch selector returns the chosen option, the first one
    when the choice does not point into the list. *)

Inductive button : Type := FetchBranches | BuildAndPackage.

#[global] Instance button_eq_dec : EqDecision button.
Proof. solve_decision. Defined.

Inductive project_kind : Type := UI | Microservice.

Definition kind_name (k : project_kind) : string :=
  match k with UI => "UI" | Microservice => "Microservice" end.

Record inputs : Type := Inputs {
  repo_url : string;
  clicked : option button;
  branch_choice : nat;
  project_type : project_kind
}.

Definition selectbox (options : list string) (choice : nat) : option string :=
  match options !! choice with
  | Some o => Some o
  | None => head options
  end.

(** Truth value of a string, and of a string or [None]. *)
Definition truthy (s : string) : bool := negb (bool_decide (s = "")).

Definition truthy_opt (o : option string) : bool :=
  match o with Some s => truthy s | None => false end.

Definition session_branches : M (list string) :=
  let* s := get_session in
  match ss_branches s with
  | Some b => ret b
  | None => raise (Exn AttributeError "branches")
  end.

Definition session_selected_branch : M (option string) :=
  let* s := get_session in
  match ss_selected_branch s with
  | Some b => ret b
  | None => raise (Exn AttributeError "selected_branch")
  end.

Definition assign_branches (b : list string) : M unit :=
  let* s := get_session in
  set_session {| ss_branches := Some b; ss_selected_branch := ss_selected_branch s |}.

Definition assign_selected_branch (b : option string) : M unit :=
  let* s := get_session in
  set_session {| ss_branches := ss_branches s; ss_selected_branch := Some b |}.

(** The derived names of a build. *)
Definition repo_name_of (repo_url : string) : string :=
  last_segment (rstrip slash repo_url).

Definition repo_path_of (repo_url branch : string) : path :=
  div WORKSPACE_DIR (repo_name_of repo_url +:+ "-" +:+ branch).

Definition zip_filename_of (repo_url branch project_type : string) : string :=
  repo_name_of repo_url +:+ "-" +:+ branch +:+ "-" +:+ project_type +:+ ".zip".

(** What [st.session_state.selected_branch] holds when the build button
    is handled: the selector's answer when branches are listed, else what
    an earlier run left. *)
Definition selection_at_build (s : session_state) (inp : inputs) : option string :=
  match default [] (ss_branches s) with
  | [] => default None (ss_selected_branch s)
  | bs => selectbox bs (branch_choice inp)
  end.

(** [RemoteReference.remote_head]: the branch a reference name stands
    for, the name without its leading remote. *)
Definition remote_head (name : string) : string :=
  join "/" (tail (split slash name)).

Section Page.
Context (env : collaborators).

(** Lines 107 to 129: clone, locate, package, offer the download. *)
Definition build_and_package (repo_url branch : string) (kind : string) : M unit :=
  let repo_path := repo_path_of repo_url branch in
  let* cloned :=
    try_except
      (show (Message Info ("Cloning `" +:+ branch +:+ "`...")) ;;;
       clone_repo env repo_url repo_path branch ;;;
       show (Message Success "✅ Repository cloned.") ;;;
       ret true)
      (λ _, true)
      (λ e, show (Message Error ("❌ Error cloning repo: " +:+ exn_msg e)) ;;;
            ret false) in
  if cloned then
    show (Message Info ("🔍 Searching for build folder for " +:+ kind +:+ "...")) ;;;
    let* build_path := find_build_dir repo_path kind in
    match build_path with
    | None =>
        let* folders := build_dirs kind in
        show (Message Error ("❌ No build folder found for " +:+ kind
                +:+ ". Expected one of: " +:+ join ", " folders))
    | Some build_path =>
        let zip_filename := zip_filename_of repo_url branch kind in
        let zip_path := div WORKSPACE_DIR zip_filename in
        zip_directory env build_path zip_path ;;;
        show (Message Success ("📦 Packaged from `" +:+ str build_path +:+ "`")) ;;;
        let* data := read_file zip_path in
        show (DownloadButton "📥 Download ZIP" data zip_filename)
    end
  else ret ().

Definition main (inp : inputs) : M unit :=
  let* s := get_session in
  (match ss_branches s with
   | None => assign_branches []
   | Some _ => ret ()
   end) ;;;
  let* s := get_session in
  (match ss_selected_branch s with
   | None => assign_selected_branch None
   | Some _ => ret ()
   end) ;;;
  (if truthy (repo_url inp) && bool_decide (clicked inp = Some FetchBranches) then
     try_except
       (let* branches := get_branches env (repo_url inp) in
        assign_branches branches ;;;
        show (Message Success "Branches fetched."))
       (λ c, bool_decide (c = GitCommandError))
       (λ e, show (Message Error ("Failed to fetch branches: " +:+ exn_msg e)))
   else ret ()) ;;;
  let* branches := session_branches in
  (match branches with
   | [] => ret ()
   | _ :: _ => assign_selected_branch (selectbox branches (branch_choice inp))
   end) ;;;
  if bool_decide (clicked inp = Some BuildAndPackage) then
    let* selected := session_selected_branch in
    if negb (truthy (repo_url inp)) || negb (truthy_opt selected) then
      show (Message Warning "❗ Please provide a GitHub URL and select a branch.")
    else
      build_and_package (repo_url inp) (default "" selected)
        (kind_name (project_type inp))
  else ret ().

End Page.

(** *** Start of the script

    [Path.mkdir(exist_ok=True)], without [parents]: nothing happens when
    the directory is there; a regular file in its place raises
    [FileExistsError] and a missing parent [FileNotFoundError], both of
    them [OSError]s. *)
Definition mkdir_exist_ok (p : path) : M unit :=
  let* n := get_fs in
  match lookup n p with
  | Some (Dir _) => ret ()
  | Some (File _) => raise (Exn FileExistsError (str p))
  | None =>
      if is_dir n (parent p) then
        match put p (Dir []) n with
        | Some n' => set_fs n'
        | None => raise (Exn OSError (str p))
        end
      else if blocked n p then raise (Exn NotADirectoryError (str p))
      else raise (Exn FileNotFoundError (str p))
  end.

(** Line 10, [WORKSPACE_DIR.mkdir(exist_ok=True)]. *)
Definition ensure_workspace : M unit := mkdir_exist_ok WORKSPACE_DIR.

(** *** Sessions and lines the page reaches *)

(** The session once lines 68 to 72 have given both attributes a value. *)
Definition session_initialised (s : session_state) : session_state :=
  {| ss_branches := Some (default [] (ss_branches s));
     ss_selected_branch := Some (default None (ss_selected_branch s)) |}.

(** The session once the branch selector has been drawn. *)
Definition session_at_build (s : session_state) (inp : inputs) : session_state :=
  {| ss_branches := Some (default [] (ss_branches s));
     ss_selected_branch := Some (selection_at_build s inp) |}.

(** The world after a successful fetch that listed [bs] and left the
    tree [n]. *)
Definition fetched (bs : list string) (inp : inputs) (w : world) (n : node) : world :=
  {| fs := n;
     session := session_at_build
                  {| ss_branches := Some bs;
                     ss_selected_branch :=
                       Some (default None (ss_selected_branch (session w))) |}
                  inp;
     page := page w ++ [Message Success "Branches fetched."] |}.

Definition no_branch_warning : element :=
  Message Warning "❗ Please provide a GitHub URL and select a branch.".

Definition cloning_line (branch : string) : element :=
  Message Info ("Cloning `" +:+ branch +:+ "`...").

(** The two lists of [BUILD_DIRS], by project type. *)
Definition candidates (kind : project_kind) : list string :=
  match kind with
  | UI => ["build"; "dist"; "out"]
  | Microservice => ["target"; "app"; "output"]
  end.

End App.

(** ** Reading an archive back

    The consumer of the archive is not part of the program; extraction
    is modelled after [ZipFile.extractall] into an empty directory, to
    state what the archive preserves. A member name is cut at the
    slashes, the pieces that are empty, [.] or [..] are dropped, missing
    directories are created; a member whose name ends in a slash is a
    directory, any other is a regular file that receives the inflated
    bytes. [None] stands for the [OSError] of a name that collides with
    an entry of the other kind. *)

Module Unzip.
Import Text Path Fs Py App.

Definition member_path (name : string) : path :=
  filter (λ c, c ≠ "" ∧ c ≠ "." ∧ c ≠ "..") (split slash name).

Definition extract_member (inflate : list byte → list byte)
    (dest : node) (m : zip_entry) : option node :=
  let p := member_path m.1 in
  if endswith slash m.1 then
    match lookup dest p with
    | Some (Dir _) => Some dest
    | Some (File _) => None
    | None => put p (Dir []) dest
    end
  else
    match lookup dest p with
    | Some (Dir _) => None
    | _ => put p (File (inflate m.2)) dest
    end.

Fixpoint extract_into (inflate : list byte → list byte)
    (dest : node) (members : list zip_entry) : option node :=
  match members with
  | [] => Some dest
  | m :: rest =>
      match extract_member inflate dest m with
      | Some dest' => extract_into inflate dest' rest
      | None => None
      end
  end.

Definition extractall (inflate : list byte → list byte)
    (members : list zip_entry) : option node :=
  extract_into inflate (Dir []) members.

(** Files that can be unpacked side by side: proper names, one content
    per path, no file below another. *)
Definition conflict_free (L : list (path * list byte)) : Prop :=
  (∀ p d, (p, d) ∈ L → p ≠ [] ∧ Forall (λ s, valid_name s = true) p) ∧
  (∀ p d d', (p, d) ∈ L → (p, d') ∈ L → d = d') ∧
  (∀ p q d d', (p, d) ∈ L → (q, d') ∈ L → ¬ below q p).

(** The tree [dest] holds the files [L] and nothing else: its regular
    files are those of [L], its directories lead to one of them. *)
Definition holds (dest : node) (L : list (path * list byte)) : Prop :=
  (∀ q d, file_at dest q = Some d ↔ (q, d) ∈ L) ∧
  (∀ q, is_dir dest q = true → q = [] ∨ ∃ p d, (p, d) ∈ L ∧ below q p).

End Unzip.

(** ** A sample client and sample worlds *)

Module Demo.
Import Text Path Fs Py App.

Definition build_tree : list (string * node) :=
  [("index.html", File [x3c; x68; x31; x3e]);
   ("empty", Dir []);
   ("js", Dir [("app.js", File [x61; x3d; x31]); ("vendor", Dir [("lib.js", File [])])])].

Definition demo_worktree : list (string * node) :=
  [(".git", Dir [("HEAD", File [x72; x65; x66])]);
   ("README.md", File [x23]);
   ("build", Dir build_tree)].

(** The branches of the sample remote. *)
Definition demo_branches : list string :=
  ["main"; "dev"; "feature/x"; "bugfix/x"].

(** The remote references a clone holds. A clone with [depth=] is a
    single-branch clone: it has [origin/HEAD] and the one branch
    fetched, the branch asked for or else the remote's default branch. A
    full clone has every branch of the remote. *)
Definition refs_after_clone (default_branch : string) (branch : option string)
    (depth : option nat) : list string :=
  "origin/HEAD" ::
  match depth with
  | Some _ => ["origin/" +:+ default default_branch branch]
  | None => (λ b, "origin/" +:+ b) <$> demo_branches
  end.

(** A client for the sample remote with the given default branch:
    stores payloads as they are and lays members out one after the
    other; clones every URL but those under [https://down.example/];
    refuses a branch the remote does not have. *)
Definition sample_client (default_branch : string) : collaborators := {|
  git_clone := λ url branch depth,
    if startswith "https://down.example/" url then
      CloneFailed "fatal: unable to access the remote" None
    else if bool_decide (default default_branch branch ∈ demo_branches) then
      Cloned {| worktree := demo_worktree;
                remote_refs := Ok (refs_after_clone default_branch branch depth) |}
    else CloneFailed "fatal: Remote branch not found in upstream origin" None;
  deflate := λ d, d;
  inflate := λ d, d;
  zip_container := flat_map (λ m : zip_entry, m.2)
|}.

(** The remote's default branch is [main]. *)
Definition demo_client : collaborators := sample_client "main".

(** The remote's default branch is [feature/x]. *)
Definition feature_client : collaborators := sample_client "feature/x".

(** What the shallow clone of [get_branches] holds with each. *)
Definition demo_refs : list string := refs_after_clone "main" None (Some 1).

Definition feature_refs : list string :=
  refs_after_clone "feature/x" None (Some 1).

Definition demo_url : string := "https://example.com/demo.git".

Definition fresh_session : session_state :=
  {| ss_branches := None; ss_selected_branch := None |}.

Definition empty_workspace : world :=
  {| fs := Dir [("workspace", Dir [])]; session := fresh_session; page := [] |}.

(** The branch selector shows [HEAD; main]; the user points at [main]
    and asks for the UI build. *)
Definition fetch_click : inputs :=
  {| repo_url := demo_url; clicked := Some FetchBranches;
     branch_choice := 1; project_type := UI |}.

Definition build_click : inputs :=
  {| repo_url := demo_url; clicked := Some BuildAndPackage;
     branch_choice := 1; project_type := UI |}.

Definition build_click_no_url : inputs :=
  {| repo_url := ""; clicked := Some BuildAndPackage;
     branch_choice := 0; project_type := UI |}.

Definition main_selected : session_state :=
  {| ss_branches := Some ["HEAD"; "main"];
     ss_selected_branch := Some (Some "main") |}.

(** An earlier clone of another branch is still in place. *)
Definition stale_clone : world :=
  {| fs := Dir [("workspace",
                 Dir [("demo.git-main",
                       Dir [("stale.txt", File [x6f; x6c; x64]);
                            ("build", Dir [("old.js", File [x30])])]);
                      ("notes.txt", File [x6e])])];
     session := main_selected; page := [] |}.

(** The clone is in place with its build folder. *)
Definition cloned : world :=
  {| fs := Dir [("workspace", Dir [("demo.git-main", Dir demo_worktree)])];
     session := main_selected; page := [] |}.

(** A directory sits where the archive is to be written. *)
Definition archive_path_taken : world :=
  {| fs := Dir [("workspace", Dir [("demo.git-main-UI.zip", Dir [])])];
     session := main_selected; page := [] |}.

(** A regular file sits where the temporary clone goes. *)
Definition temp_repo_is_a_file : world :=
  {| fs := Dir [("workspace", Dir [("temp_repo", File [])])];
     session := fresh_session; page := [] |}.

(** A repository with only [dist] and [out]. *)
Definition dist_and_out : world :=
  {| fs := Dir [("repo", Dir [("dist", Dir []); ("out", Dir [])])];
     session := fresh_session; page := [] |}.

(** A client whose clone succeeds and whose reference listing raises. *)
Definition refless_client : collaborators := {|
  git_clone := λ url branch depth,
    Cloned {| worktree := [(".git", Dir [])];
              remote_refs := Raise (Exn AssertionError
                "Did not find any remote references") |};
  deflate := λ d, d;
  inflate := λ d, d;
  zip_container := flat_map (λ m : zip_entry, m.2)
|}.

(** A client whose clone fails part-way and leaves what it had written. *)
Definition interrupted_client : collaborators := {|
  git_clone := λ url branch depth,
    CloneFailed "fatal: early EOF" (Some (Dir [(".git", Dir [])]));
  deflate := λ d, d;
  inflate := λ d, d;
  zip_container := flat_map (λ m : zip_entry, m.2)
|}.

(** A build folder with a file whose name is the byte 255 followed by
    [.txt], which is not UTF-8, between two plain files, and an empty
    sub-directory. *)
Definition odd_name : string := String "255"%char ".txt".

Definition odd_tree : list (string * node) :=
  [("a.txt", File [x61]); (odd_name, File [x62]); ("cache", Dir []);
   ("z.txt", File [x7a])].

Definition odd_build : world :=
  {| fs := Dir [("workspace", Dir [("odd-main", Dir [("build", Dir odd_tree)])])];
     session := fresh_session; page := [] |}.

(** Nothing is pressed. *)
Definition no_click : inputs :=
  {| repo_url := demo_url; clicked := None;
     branch_choice := 1; project_type := UI |}.

(** The microservice build of the same repository, which has no folder
    of that type. *)
Definition build_click_microservice : inputs :=
  {| repo_url := demo_url; clicked := Some BuildAndPackage;
     branch_choice := 1; project_type := Microservice |}.

(** A URL the sample client cannot reach. *)
Definition down_url : string := "https://down.example/demo".

Definition fetch_click_down : inputs :=
  {| repo_url := down_url; clicked := Some FetchBranches;
     branch_choice := 0; project_type := UI |}.

Definition build_click_down : inputs :=
  {| repo_url := down_url; clicked := Some BuildAndPackage;
     branch_choice := 1; project_type := UI |}.

(** A regular file sits where the workspace goes. *)
Definition workspace_is_a_file : world :=
  {| fs := Dir [("workspace", File [])]; session := fresh_session; page := [] |}.

(** The working directory is empty. *)
Definition no_workspace : world :=
  {| fs := Dir []; session := fresh_session; page := [] |}.

(** A regular file sits where the clone goes. *)
Definition clone_path_is_a_file : world :=
  {| fs := Dir [("workspace", Dir [("demo.git-main", File [x78])])];
     session := main_selected; page := [] |}.

(** A client whose clone delivers a build folder with a name that is
    not UTF-8. *)
Definition odd_client : collaborators := {|
  git_clone := λ url branch depth,
    Cloned {| worktree := [("build", Dir odd_tree)];
              remote_refs := Ok ["origin/HEAD"; "origin/main"] |};
  deflate := λ d, d;
  inflate := λ d, d;
  zip_container := flat_map (λ m : zip_entry, m.2)
|}.

End Demo.

(** * Facts *)

(** ** Facts on the string operations *)

Module TextFacts.
Import Text.

Lemma split_nonempty sep s : split sep s ≠ [].
Proof.
  destruct s as [|c s]; simpl; [done|].
  case_decide; [done|]. by destruct (split sep s).
Qed.

Lemma split_last_is_Some sep s : is_Some (last (split sep s)).
Proof.
  pose proof (split_nonempty sep s) as Hne.
  destruct (split sep s) as [|w ws] eqn:E; [done|].
  rewrite last_is_Some. done.
Qed.

Lemma last_cons_cons {A} (x y : A) l : last (x :: y :: l) = last (y :: l).
Proof. done. Qed.

Lemma split_pieces_no_sep sep s :
  Forall (λ w, contains sep w = false) (split sep s).
Proof.
  induction s as [|c s IH]; simpl.
  - by repeat constructor.
  - case_decide as Hc.
    + by constructor.
    + destruct (split sep s) as [|w ws]; simpl.
      * repeat constructor. simpl. by rewrite bool_decide_eq_false_2.
      * inversion IH as [|? ? Hw Hws]; subst. constructor; [|done].
        simpl. by rewrite bool_decide_eq_false_2.
Qed.

Lemma last_segment_no_slash s : contains slash (last_segment s) = false.
Proof.
  unfold last_segment.
  destruct (split_last_is_Some slash s) as [w Hw]. rewrite Hw. simpl.
  pose proof (split_pieces_no_sep slash s) as Hall.
  rewrite Forall_forall in Hall. apply Hall.
  by eapply last_Some_elem_of.
Qed.

Lemma split_no_sep sep s : contains sep s = false → split sep s = [s].
Proof.
  induction s as [|c s IH]; simpl; [done|].
  intros [Hc Hs]%orb_false_elim. apply bool_decide_eq_false in Hc.
  rewrite decide_False by done. by rewrite IH.
Qed.

Lemma last_segment_no_sep s : contains slash s = false → last_segment s = s.
Proof. intros H. unfold last_segment. by rewrite split_no_sep. Qed.

Lemma split_app_sep sep (w s : string) :
  contains sep w = false →
  split sep (w +:+ String sep s) = w :: split sep s.
Proof.
  induction w as [|c w IH]; simpl.
  - intros _. by rewrite decide_True.
  - intros [Hc Hw]%orb_false_elim. apply bool_decide_eq_false in Hc.
    rewrite decide_False by done.
    change (String.append w (String sep s)) with (w +:+ String sep s).
    by rewrite IH.
Qed.

(** Splitting undoes joining when no part holds the separator. *)
Lemma split_join sep (parts : list string) :
  parts ≠ [] →
  Forall (λ w, contains sep w = false) parts →
  split sep (join (String sep "") parts) = parts.
Proof.
  induction parts as [|p ps IH]; [done|]. intros _ Hall.
  inversion Hall as [|? ? Hp Hps]; subst.
  destruct ps as [|q ps].
  - simpl. by apply split_no_sep.
  - change (join (String sep "") (p :: q :: ps))
      with (p +:+ String sep "" +:+ join (String sep "") (q :: ps)).
    change (String sep "" +:+ join (String sep "") (q :: ps))
      with (String sep (join (String sep "") (q :: ps))).
    rewrite split_app_sep by done. by rewrite IH.
Qed.

Lemma last_segment_app_sep (w s : string) :
  contains slash w = false →
  last_segment (w +:+ String slash s) = last_segment s.
Proof.
  intros Hw. unfold last_segment. rewrite split_app_sep by done.
  pose proof (split_nonempty slash s).
  destruct (split slash s); [done|]. by rewrite last_cons_cons.
Qed.

End TextFacts.

(** ** Facts on the directory tree *)

Module FsFacts.
Import Text Path Fs Py App Unzip TextFacts.

Section Assoc.
Context {V : Type}.
Implicit Types (k : string) (v : V) (l : list (string * V)).

Lemma assoc_get_set_eq k v l : assoc_get k (assoc_set k v l) = Some v.
Proof.
  induction l as [|[k' v'] l IH]; simpl.
  - by rewrite decide_True.
  - destruct (decide (k' = k)) as [->|Hne]; simpl.
    + by rewrite decide_True.
    + by rewrite decide_False.
Qed.

Lemma assoc_get_set_ne k k' v l :
  k ≠ k' → assoc_get k' (assoc_set k v l) = assoc_get k' l.
Proof.
  intros Hne. induction l as [|[k0 v0] l IH]; simpl.
  - by rewrite decide_False.
  - destruct (decide (k0 = k)) as [->|Hk0]; simpl.
    + by rewrite !decide_False.
    + by rewrite IH.
Qed.

Lemma assoc_get_del_eq k l : assoc_get k (assoc_del k l) = None.
Proof.
  unfold assoc_del. induction l as [|[k' v'] l IH]; [done|].
  rewrite filter_cons. simpl. destruct (decide (k' ≠ k)) as [Hne|Heq]; simpl.
  - by rewrite decide_False.
  - done.
Qed.

Lemma assoc_get_del_ne k k' l :
  k ≠ k' → assoc_get k' (assoc_del k l) = assoc_get k' l.
Proof.
  intros Hne. unfold assoc_del. induction l as [|[k0 v0] l IH]; [done|].
  rewrite filter_cons. simpl. destruct (decide (k0 ≠ k)) as [Hk0|Hk0]; simpl.
  - by rewrite IH.
  - apply dec_stable in Hk0 as ->. by rewrite decide_False.
Qed.

Lemma assoc_get_Some_elem_of k v l : assoc_get k l = Some v → (k, v) ∈ l.
Proof.
  induction l as [|[k' v'] l IH]; simpl; [done|].
  destruct (decide (k' = k)) as [->|Hne].
  - intros [= ->]. by left.
  - intros H. right. by apply IH.
Qed.

Lemma assoc_get_None k l : assoc_get k l = None ↔ k ∉ l.*1.
Proof.
  induction l as [|[k' v'] l IH]; simpl.
  - split; [intros _; apply not_elem_of_nil | done].
  - rewrite not_elem_of_cons. destruct (decide (k' = k)) as [->|Hne].
    + split; [done | intros [? _]; done].
    + rewrite IH. split; [intros ?; split; [by intros ->|done] | by intros [_ ?]].
Qed.

Lemma assoc_get_NoDup k v l : NoDup l.*1 → (k, v) ∈ l → assoc_get k l = Some v.
Proof.
  induction l as [|[k' v'] l IH]; simpl.
  - intros _ H. by apply elem_of_nil in H.
  - rewrite NoDup_cons. intros [Hk' Hnd] [[= -> ->]|Hin]%elem_of_cons.
    + by rewrite decide_True.
    + rewrite decide_False; [by apply IH|].
      intros ->. apply Hk'. apply list_elem_of_fmap. by exists (k, v).
Qed.

End Assoc.

(** *** Reading after writing *)

Lemma lookup_app n p q :
  lookup n (p ++ q) = lookup n p ≫= λ c, lookup c q.
Proof.
  revert n. induction p as [|name p IH]; intros n; simpl; [done|].
  destruct n as [d|es]; [done|]. destruct (assoc_get name es); [apply IH|done].
Qed.

Lemma lookup_put_eq p new n n' : put p new n = Some n' → lookup n' p = Some new.
Proof.
  revert n n'. induction p as [|name p IH]; intros n n'; simpl.
  - by intros [= ->].
  - destruct n as [d|es]; [done|].
    destruct (put p new _) as [c'|] eqn:E; simpl; [|done].
    intros [= <-]. simpl. rewrite assoc_get_set_eq. by eapply IH.
Qed.

Lemma lookup_put_below p q new n n' :
  put p new n = Some n' → lookup n' (p ++ q) = lookup new q.
Proof. intros H. rewrite lookup_app. by rewrite (lookup_put_eq _ _ _ _ H). Qed.

Lemma apart_cons name p q : apart (name :: p) (name :: q) → apart p q.
Proof.
  intros [H1 H2]. split; intros Hp; [apply H1|apply H2]; by apply prefix_cons.
Qed.

Lemma apart_nonempty p q : apart p q → p ≠ [] ∧ q ≠ [].
Proof.
  intros [H1 H2]. split; intros ->; [apply H1|apply H2]; apply prefix_nil.
Qed.

Lemma lookup_put_apart p q new n n' :
  put p new n = Some n' → apart p q → lookup n' q = lookup n q.
Proof.
  revert q n n'. induction p as [|name p IH]; intros q n n' Hput Hap.
  - by destruct (apart_nonempty _ _ Hap).
  - destruct q as [|name' q]; [by destruct (apart_nonempty _ _ Hap)|].
    simpl in Hput. destruct n as [d|es]; [done|].
    destruct (put p new _) as [c'|] eqn:E; simpl in Hput; [|done].
    injection Hput as <-. simpl.
    destruct (decide (name = name')) as [<-|Hne].
    + rewrite assoc_get_set_eq.
      rewrite (IH q _ _ E (apart_cons _ _ _ Hap)).
      destruct (assoc_get name es) as [c|] eqn:Ec; simpl; [done|].
      destruct q; [|done]. destruct Hap as [_ Hap]. exfalso. apply Hap.
      apply prefix_cons, prefix_nil.
    + by rewrite assoc_get_set_ne.
Qed.

Lemma put_is_Some p new n : blocked n p = false → is_Some (put p new n).
Proof.
  revert n. induction p as [|name p IH]; intros n; simpl; [by eexists|].
  destruct n as [d|es]; [done|]. intros Hb.
  destruct (IH (default (Dir []) (assoc_get name es))) as [c' ->]; [|by eexists].
  destruct (assoc_get name es); simpl; [done|]. by destruct p.
Qed.

Lemma lookup_remove_eq p n : p ≠ [] → lookup (remove p n) p = None.
Proof.
  revert n. induction p as [|name p IH]; intros n Hne; [done|].
  destruct n as [d|es]; [by destruct p|].
  destruct p as [|name' p].
  - simpl. by rewrite assoc_get_del_eq.
  - change (remove (name :: name' :: p) (Dir es))
      with (match assoc_get name es with
            | Some c => Dir (assoc_set name (remove (name' :: p) c) es)
            | None => Dir es
            end).
    destruct (assoc_get name es) as [c|] eqn:Ec.
    + change (lookup (Dir ?e) (name :: ?r))
        with (match assoc_get name e with Some c => lookup c r | None => None end).
      rewrite assoc_get_set_eq. by apply IH.
    + simpl. by rewrite Ec.
Qed.

Lemma lookup_remove_apart p q n : apart p q → lookup (remove p n) q = lookup n q.
Proof.
  revert q n. induction p as [|name p IH]; intros q n Hap.
  - by destruct (apart_nonempty _ _ Hap).
  - destruct q as [|name' q]; [by destruct (apart_nonempty _ _ Hap)|].
    destruct n as [d|es]; [by destruct p|].
    destruct p as [|name2 p].
    + simpl. destruct (decide (name = name')) as [<-|Hne].
      * destruct Hap as [Hap _]. exfalso. apply Hap. apply prefix_cons, prefix_nil.
      * by rewrite assoc_get_del_ne.
    + change (remove (name :: name2 :: p) (Dir es))
        with (match assoc_get name es with
              | Some c => Dir (assoc_set name (remove (name2 :: p) c) es)
              | None => Dir es
              end).
      destruct (assoc_get name es) as [c|] eqn:Ec; [|done].
      simpl. destruct (decide (name = name')) as [<-|Hne].
      * rewrite assoc_get_set_eq, Ec. apply IH. by eapply apart_cons.
      * by rewrite assoc_get_set_ne.
Qed.

(** Where something exists, no leading part is a regular file, and
    removing it does not change that. *)
Lemma blocked_remove p n x : lookup n p = Some x → blocked (remove p n) p = false.
Proof.
  revert n. induction p as [|name p IH]; intros n; [done|].
  destruct n as [d|es]; [done|]. simpl.
  destruct (assoc_get name es) as [c|] eqn:Ec; [|done]. intros Hc.
  destruct p as [|name2 p].
  - simpl. by rewrite assoc_get_del_eq.
  - simpl. rewrite assoc_get_set_eq. by apply IH.
Qed.

Lemma blocked_lookup_Some p n x : lookup n p = Some x → blocked n p = false.
Proof.
  revert n. induction p as [|name p IH]; intros n; [done|].
  destruct n as [d|es]; [done|]. simpl.
  destruct (assoc_get name es) as [c|]; [apply IH|done].
Qed.

(** Induction on trees, with the hypothesis for every entry of a directory. *)
Lemma node_ind' (P : node → Prop) :
  (∀ d, P (File d)) →
  (∀ es, Forall (λ e, P e.2) es → P (Dir es)) →
  ∀ n, P n.
Proof.
  intros HF HD. fix IH 1. intros [d|es]; [apply HF|].
  apply HD. induction es as [|[name c] es IHes]; constructor; [apply IH|apply IHes].
Qed.

Lemma path_trichotomy (p q : path) :
  q = p ∨ apart p q ∨ below q p ∨ below p q.
Proof.
  revert q. induction p as [|x p IH]; intros [|y q].
  - by left.
  - right; right; right. exists (y :: q). done.
  - right; right; left. exists (x :: p). done.
  - destruct (decide (x = y)) as [<-|Hne].
    + destruct (IH q) as [->|[[H1 H2]|[(r & Hr & ->)|(r & Hr & ->)]]].
      * by left.
      * right; left. split; intros Hp; [apply H1|apply H2]; by eapply prefix_cons_inv_2.
      * right; right; left. by exists r.
      * right; right; right. by exists r.
    + right; left. split; intros Hp; apply prefix_cons_inv_1 in Hp; congruence.
Qed.

Lemma below_not_apart p q : below q p → ¬ apart p q.
Proof. intros (r & _ & ->) [_ H]. apply H. by exists r. Qed.

Lemma put_ancestor_dir q r new n n' :
  put (q ++ r) new n = Some n' → r ≠ [] → is_dir n' q = true.
Proof.
  revert n n'. induction q as [|name q IH]; intros n n' Hput Hr.
  - destruct r as [|x r]; [done|]. simpl in Hput.
    destruct n as [d|es]; [done|].
    destruct (put r new _); simpl in Hput; [|done]. by injection Hput as <-.
  - simpl in Hput. destruct n as [d|es]; [done|].
    destruct (put (q ++ r) new _) as [c'|] eqn:E; simpl in Hput; [|done].
    injection Hput as <-. unfold is_dir. simpl. rewrite assoc_get_set_eq.
    by apply (IH _ _ E).
Qed.

Lemma lookup_beyond_file n p d r :
  lookup n p = Some (File d) → r ≠ [] → lookup n (p ++ r) = None.
Proof. intros H Hr. rewrite lookup_app, H. simpl. by destruct r. Qed.

Lemma blocked_file_prefix n p :
  blocked n p = true → ∃ q d, below q p ∧ lookup n q = Some (File d).
Proof.
  revert n. induction p as [|name p IH]; intros n; [done|].
  destruct n as [d|es]; simpl.
  - intros _. exists [], d. split; [|done]. by exists (name :: p).
  - destruct (assoc_get name es) as [c|] eqn:Ec; [|done].
    intros (q & d & (r & Hr & ->) & Hq)%IH.
    exists (name :: q), d. split; [by exists r|]. simpl. by rewrite Ec.
Qed.

Lemma blocked_under_dir n q x es :
  lookup n q = Some (Dir es) → blocked n (q ++ [x]) = false.
Proof.
  revert n. induction q as [|name q IH]; intros n; simpl.
  - intros [= ->]. by destruct (assoc_get x es).
  - destruct n as [d|es']; [done|].
    destruct (assoc_get name es'); [apply IH|done].
Qed.

Lemma parent_snoc (q : path) x : parent (q ++ [x]) = q.
Proof.
  unfold parent. rewrite length_app. simpl.
  replace (length q + 1 - 1) with (length q) by lia. by rewrite take_app_length.
Qed.

Lemma path_snoc (p : path) : p ≠ [] → ∃ q x, p = q ++ [x].
Proof.
  induction p as [|x q _] using rev_ind; [done|]. intros _. by exists q, x.
Qed.

(** *** Well-formed trees *)

Lemma wf_Dir es :
  wf (Dir es) = true ↔
  NoDup es.*1 ∧ Forall (λ e, valid_name e.1 = true ∧ wf e.2 = true) es.
Proof.
  simpl. rewrite andb_true_iff, bool_decide_eq_true, forallb_forall, Forall_forall.
  split; intros [Hnd Hall]; (split; [done|]).
  - intros e He. apply andb_true_iff, Hall. by apply list_elem_of_In.
  - intros e He. apply andb_true_iff, Hall. by apply list_elem_of_In.
Qed.

Lemma wf_entry es name c :
  wf (Dir es) = true → (name, c) ∈ es →
  valid_name name = true ∧ wf c = true ∧ assoc_get name es = Some c.
Proof.
  intros [Hnd Hall]%wf_Dir Hin. rewrite Forall_forall in Hall.
  destruct (Hall _ Hin) as [Hv Hw]. repeat split; [done..|].
  by apply assoc_get_NoDup.
Qed.

Lemma wf_lookup n p c :
  wf n = true → lookup n p = Some c → wf c = true ∧ Forall (λ s, valid_name s = true) p.
Proof.
  revert n. induction p as [|name p IH]; intros n Hwf; simpl.
  - intros [= <-]. by split.
  - destruct n as [d|es]; [done|].
    destruct (assoc_get name es) as [c'|] eqn:Ec; [|done]. intros Hl.
    destruct (wf_entry es name c' Hwf) as (Hv & Hw & _); [by apply assoc_get_Some_elem_of|].
    destruct (IH _ Hw Hl) as [? ?]. split; [done|]. by constructor.
Qed.

(** *** Names and paths *)

Lemma valid_name_spec s :
  valid_name s = true → (s ≠ "" ∧ s ≠ "." ∧ s ≠ "..") ∧ contains slash s = false.
Proof.
  unfold valid_name.
  rewrite !andb_true_iff, bool_decide_eq_true, !negb_true_iff. by intros [? _].
Qed.

Lemma startswith_slash_contains s : startswith "/" s = true → contains slash s = true.
Proof.
  destruct s as [|a s]; simpl; [done|].
  intros [Ha _]%andb_true_iff. apply bool_decide_eq_true in Ha as <-. done.
Qed.

Lemma parse_plain_name s :
  s ≠ "" → s ≠ "." → contains slash s = false →
  startswith "/" s = false ∧ parse s = [s].
Proof.
  intros Hne Hdot Hns.
  assert (Hs : startswith "/" s = false).
  { destruct (startswith "/" s) eqn:E; [|done].
    apply startswith_slash_contains in E. congruence. }
  split; [done|]. unfold parse, anchor_of. rewrite Hs.
  assert (Hss : startswith "//" s = false).
  { destruct s as [|a s]; [done|]. simpl in *.
    destruct (bool_decide ("/"%char = a)); [done|done]. }
  rewrite Hss. simpl. unfold components. rewrite split_no_sep by done.
  rewrite filter_cons, decide_True by done. done.
Qed.

Lemma parse_valid_name s : valid_name s = true → startswith "/" s = false ∧ parse s = [s].
Proof. intros [(Hne & Hdot & _) Hns]%valid_name_spec. by apply parse_plain_name. Qed.

Lemma div_plain_name p s :
  s ≠ "" → s ≠ "." → contains slash s = false → div p s = p ++ [s].
Proof.
  intros Hne Hdot Hns. destruct (parse_plain_name s Hne Hdot Hns) as [Hs Hp].
  unfold div. by rewrite Hs, Hp.
Qed.

Lemma div_valid_name p s : valid_name s = true → div p s = p ++ [s].
Proof. intros [(Hne & Hdot & _) Hns]%valid_name_spec. by apply div_plain_name. Qed.

Lemma relative_to_app (base p : path) : relative_to (base ++ p) base = Some p.
Proof.
  induction base as [|b base IH]; simpl; [by destruct p|]. by rewrite decide_True.
Qed.

Lemma str_valid (p : path) :
  p ≠ [] → Forall (λ s, valid_name s = true) p → str p = join "/" p.
Proof.
  destruct p as [|a p]; [done|]. intros _ Hall. unfold str.
  inversion Hall as [|? ? [_ Ha]%valid_name_spec _]; subst.
  unfold is_anchor. rewrite bool_decide_eq_false_2; [done|].
  intros [->| ->]; done.
Qed.

Lemma member_path_str (p : path) :
  p ≠ [] → Forall (λ s, valid_name s = true) p → member_path (str p) = p.
Proof.
  intros Hp Hall. rewrite str_valid by done. unfold member_path.
  change "/" with (String slash ""). rewrite split_join; [|done|].
  - induction Hall as [|s p [Hs _]%valid_name_spec Hall IH]; [done|].
    rewrite filter_cons, decide_True by done. destruct p as [|s' p]; [done|].
    by rewrite IH.
  - eapply Forall_impl; [done|]. by intros s [_ ?]%valid_name_spec.
Qed.

Lemma endswith_app c (a b : string) : b ≠ "" → endswith c (a +:+ b) = endswith c b.
Proof.
  intros Hb. induction a as [|x a IH]; [done|].
  change (String x a +:+ b) with (String x (a +:+ b)). simpl.
  destruct (a +:+ b) eqn:E; [|done].
  destruct a; [by apply Hb in E|discriminate E].
Qed.

Lemma endswith_no_sep c s : contains c s = false → endswith c s = false.
Proof.
  induction s as [|a s IH]; [done|]. simpl.
  intros [Ha Hs]%orb_false_elim. destruct s; [done|]. by apply IH.
Qed.

Lemma join_nonempty sep (p : path) :
  p ≠ [] → Forall (λ s, s ≠ "") p → join sep p ≠ "".
Proof.
  destruct p as [|a p]; [done|]. intros _ Hall.
  inversion Hall as [|? ? Ha _]; subst.
  destruct p; simpl; [done|]. by destruct a.
Qed.

Lemma endswith_str (p : path) :
  p ≠ [] → Forall (λ s, valid_name s = true) p → endswith slash (str p) = false.
Proof.
  intros Hp Hall. rewrite str_valid by done. clear Hp.
  induction Hall as [|s p [[Hs _] Hns]%valid_name_spec Hall IH]; [done|].
  destruct p as [|s' p]; [by apply endswith_no_sep|].
  change (join "/" (s :: s' :: p)) with (s +:+ "/" +:+ join "/" (s' :: p)).
  rewrite endswith_app.
  - rewrite endswith_app; [done|]. apply join_nonempty; [done|].
    eapply Forall_impl; [done|]. by intros x [[? _] _]%valid_name_spec.
  - done.
Qed.

(** *** The files of a tree *)

Lemma elem_of_local_files rel es p d :
  (p, d) ∈ local_files rel es ↔ ∃ name, (name, File d) ∈ es ∧ p = rel ++ [name].
Proof.
  unfold local_files. rewrite list_elem_of_omap. split.
  - intros ([name c] & Hin & Hc). simpl in Hc. destruct c as [d'|]; [|done].
    injection Hc as <- <-. by exists name.
  - intros (name & Hin & ->). by exists (name, File d).
Qed.

Lemma elem_of_flat_map {A B} (f : A → list B) (l : list A) (y : B) :
  y ∈ flat_map f l ↔ ∃ x, x ∈ l ∧ y ∈ f x.
Proof.
  rewrite list_elem_of_In, in_flat_map. split; intros (x & Hx & Hy); exists x.
  - by rewrite !list_elem_of_In.
  - by rewrite <- !list_elem_of_In.
Qed.

Lemma file_at_cons es name q d :
  file_at (Dir es) (name :: q) = Some d ↔
  ∃ c, assoc_get name es = Some c ∧ file_at c q = Some d.
Proof.
  unfold file_at. simpl. destruct (assoc_get name es) as [c|].
  - split; [by exists c|]. by intros (c' & [= <-] & ?).
  - split; [done|]. by intros (c' & ? & _).
Qed.

Lemma elem_of_files_under n rel p d :
  wf n = true →
  (p, d) ∈ files_under rel n ↔ ∃ q, q ≠ [] ∧ p = rel ++ q ∧ file_at n q = Some d.
Proof.
  revert rel p d. induction n as [d0|es IH] using node_ind'; intros rel p d Hwf.
  - simpl. split; [by intros ?%elem_of_nil|].
    by intros ([|x q] & ? & _ & Hq).
  - rewrite Forall_forall in IH.
    cbn [files_under]. rewrite elem_of_app, elem_of_local_files, elem_of_flat_map.
    split.
    + intros [(name & Hin & ->)|([name c] & Hin & Hp)].
      * exists [name]. split; [done|]. split; [done|].
        apply file_at_cons. exists (File d). split; [|done].
        by apply (wf_entry es name (File d) Hwf).
      * destruct (wf_entry es name c Hwf Hin) as (_ & Hwc & Hget).
        apply (IH _ Hin) in Hp as (q & Hq & -> & Hf); [|done].
        exists (name :: q). split; [done|]. simpl. rewrite <- app_assoc.
        split; [done|]. apply file_at_cons. by exists c.
    + intros ([|name q] & Hq & -> & Hf); [done|].
      apply file_at_cons in Hf as (c & Hget & Hf).
      pose proof (assoc_get_Some_elem_of _ _ _ Hget) as Hin.
      destruct (wf_entry es name c Hwf Hin) as (_ & Hwc & _).
      destruct q as [|x q].
      * left. exists name. split; [|done].
        unfold file_at in Hf. simpl in Hf. destruct c; [|done]. by injection Hf as ->.
      * right. exists (name, c). split; [done|]. apply (IH _ Hin); [done|].
        exists (x :: q). split; [done|]. split; [|done]. simpl.
        by rewrite <- app_assoc.
Qed.

(** The files of a well-formed tree have proper names, and no file lies
    below another. *)
Lemma file_at_valid n q d :
  wf n = true → file_at n q = Some d → Forall (λ s, valid_name s = true) q.
Proof.
  intros Hwf Hf. unfold file_at in Hf.
  destruct (lookup n q) as [c|] eqn:E; [|done].
  by destruct (wf_lookup _ _ _ Hwf E).
Qed.

Lemma file_at_not_below n q p d d' :
  file_at n q = Some d → file_at n p = Some d' → ¬ below q p.
Proof.
  intros Hq Hp (r & Hr & ->). unfold file_at in *.
  destruct (lookup n q) as [[dq|]|] eqn:Eq; [|done..].
  by rewrite (lookup_beyond_file _ _ _ _ Eq Hr) in Hp.
Qed.

End FsFacts.

(** ** Facts on the program *)

Module AppFacts.
Import Text Path Fs Py App Unzip TextFacts FsFacts.
Local Open Scope py_scope.

(** *** [sorted(set(l))] *)

Lemma elem_of_sorted_set b l : b ∈ sorted_set l ↔ b ∈ l.
Proof.
  unfold sorted_set. rewrite merge_sort_Permutation.
  rewrite elem_of_elements. apply elem_of_list_to_set.
Qed.

Lemma NoDup_sorted_set l : NoDup (sorted_set l).
Proof.
  unfold sorted_set. rewrite merge_sort_Permutation. apply NoDup_elements.
Qed.

Lemma sorted_sorted_set l : StronglySorted String.le (sorted_set l).
Proof. unfold sorted_set. apply StronglySorted_merge_sort; apply _. Qed.

(** *** Clearing a destination *)

Lemma cleared_lookup n p : p ≠ [] → file_at n p = None → lookup (cleared n p) p = None.
Proof.
  intros Hp Hf. unfold cleared, exists_.
  destruct (lookup n p) eqn:E; [by apply lookup_remove_eq|done].
Qed.

Lemma cleared_blocked n p : blocked n p = false → blocked (cleared n p) p = false.
Proof.
  intros Hb. unfold cleared, exists_.
  destruct (lookup n p) eqn:E; [by eapply blocked_remove|done].
Qed.

Lemma cleared_apart n p q : apart p q → lookup (cleared n p) q = lookup n q.
Proof.
  intros Hap. unfold cleared.
  destruct (exists_ n p); [by apply lookup_remove_apart|done].
Qed.

Lemma div_workspace_temp_repo : div WORKSPACE_DIR "temp_repo" = ["workspace"; "temp_repo"].
Proof. reflexivity. Qed.

Section Runs.
Context (env : collaborators).

Lemma rmtree_dir p es w :
  p ≠ [] → lookup (fs w) p = Some (Dir es) →
  rmtree p w = (Ok (), with_fs (remove p (fs w)) w).
Proof.
  intros Hp Hl. unfold rmtree, bind, get_fs. simpl.
  destruct p; [done|]. by rewrite Hl.
Qed.

Lemma clone_from_ok url dest branch depth r n' w :
  occupied (fs w) dest = false →
  git_clone env url branch depth = Cloned r →
  put dest (Dir (worktree r)) (fs w) = Some n' →
  clone_from env url dest branch depth w = (Ok r, with_fs n' w).
Proof.
  intros Ho Hg Hp. unfold clone_from, bind, get_fs. simpl.
  by rewrite Ho, Hg, Hp.
Qed.

(** The lines that [clone_repo] and [get_branches] share: clear the
    destination if it exists, then clone into it. *)
Lemma fresh_clone_run url p branch depth r w :
  p ≠ [] → blocked (fs w) p = false → file_at (fs w) p = None →
  git_clone env url branch depth = Cloned r →
  ∃ n', put p (Dir (worktree r)) (cleared (fs w) p) = Some n' ∧
    ∀ A (k : repo → M A),
      (let* e := path_exists p in
       (if e then rmtree p else ret ()) ;;;
       let* repo := clone_from env url p branch depth in k repo) w
      = k r (with_fs n' w).
Proof.
  intros Hp Hb Hf Hg.
  destruct (put_is_Some p (Dir (worktree r)) (cleared (fs w) p)) as [n' Hn'];
    [by apply cleared_blocked|].
  exists n'. split; [done|]. intros A k.
  assert (Hc : clone_from env url p branch depth (with_fs (cleared (fs w) p) w)
               = (Ok r, with_fs n' w)).
  { erewrite clone_from_ok; [done| |done|done].
    unfold occupied. simpl. by rewrite cleared_lookup. }
  unfold bind at 1. unfold path_exists, bind at 1, get_fs, ret. simpl.
  unfold cleared, exists_ in *. unfold file_at in Hf.
  destruct (lookup (fs w) p) as [[d|es]|] eqn:E; [done| |].
  - unfold bind at 1. erewrite rmtree_dir by done.
    unfold bind at 1. by rewrite Hc.
  - unfold bind at 1. simpl. unfold bind at 1.
    replace w with (with_fs (fs w) w) at 1 by (by destruct w). by rewrite Hc.
Qed.

(** C9. Whenever the shallow clone succeeds and the references can be
    read, [get_branches] returns, and what it returns is made of the
    last slash-separated segment of each reference name and of nothing
    else: no entry holds a slash, a reference [origin/feature/x] gives
    the entry [x] and never [feature/x], references that share their
    last segment give one entry (the result has no duplicates), and
    [origin/HEAD] gives the entry [HEAD]. *)
Theorem get_branches_reports_last_segments url w r refs :
  blocked (fs w) (div WORKSPACE_DIR "temp_repo") = false →
  file_at (fs w) (div WORKSPACE_DIR "temp_repo") = None →
  git_clone env url None (Some 1) = Cloned r →
  remote_refs r = Ok refs →
  ∃ bs w',
    get_branches env url w = (Ok bs, w') ∧
    (∀ b, b ∈ bs ↔ ∃ name, name ∈ refs ∧ b = last_segment name) ∧
    NoDup bs ∧
    Forall (λ b, contains slash b = false) bs ∧
    ("origin/feature/x" ∈ refs → "x" ∈ bs ∧ "feature/x" ∉ bs) ∧
    ("origin/HEAD" ∈ refs → "HEAD" ∈ bs).
Proof.
  intros Hb Hf Hg Hr.
  unfold get_branches.
  destruct (fresh_clone_run url (div WORKSPACE_DIR "temp_repo") None (Some 1) r w)
    as (n' & Hput & ->); [done..|].
  unfold bind at 1, lift. rewrite Hr.
  unfold bind at 1. erewrite rmtree_dir; [|done|].
  2:{ simpl. by apply lookup_put_eq in Hput. }
  eexists _, _. split; [reflexivity|].
  assert (Hmem : ∀ b, b ∈ sorted_set (last_segment <$> refs)
                   ↔ ∃ name, name ∈ refs ∧ b = last_segment name).
  { intros b. rewrite elem_of_sorted_set, list_elem_of_fmap.
    split; intros (name & H1 & H2); by exists name. }
  split; [done|]. split; [apply NoDup_sorted_set|].
  split.
  { rewrite Forall_forall. intros b [name [_ ->]]%Hmem. apply last_segment_no_slash. }
  split.
  - intros Hin. split.
    + apply Hmem. by exists "origin/feature/x".
    + intros [name [_ Hx]]%Hmem.
      pose proof (last_segment_no_slash name) as Hns. by rewrite <- Hx in Hns.
  - intros Hin. apply Hmem. by exists "origin/HEAD".
Qed.

(** When the listing succeeds the temporary clone is gone. *)
Lemma get_branches_cleans_up_on_success url w r refs :
  blocked (fs w) (div WORKSPACE_DIR "temp_repo") = false →
  file_at (fs w) (div WORKSPACE_DIR "temp_repo") = None →
  git_clone env url None (Some 1) = Cloned r →
  remote_refs r = Ok refs →
  ∃ w', get_branches env url w = (Ok (sorted_set (last_segment <$> refs)), w') ∧
        exists_ (fs w') (div WORKSPACE_DIR "temp_repo") = false.
Proof.
  intros Hb Hf Hg Hr. unfold get_branches.
  destruct (fresh_clone_run url (div WORKSPACE_DIR "temp_repo") None (Some 1) r w)
    as (n' & Hput & ->); [done..|].
  unfold bind at 1, lift. rewrite Hr.
  unfold bind at 1. erewrite rmtree_dir; [|done|].
  2:{ simpl. by apply lookup_put_eq in Hput. }
  eexists. split; [reflexivity|]. unfold exists_. cbn [fs with_fs].
  by rewrite lookup_remove_eq.
Qed.

(** C5. For a destination that is absent or a directory, and a client
    that can clone the branch, [clone_repo] returns; it clears the
    destination first (the tree it clones into is the one without it)
    and asks for a full clone of exactly the named branch. Afterwards the
    destination holds what that clone delivered and nothing else: every
    path below it reads as in the delivered content, so nothing of an
    earlier clone is left; every path that is neither below the
    destination nor on the way to it reads as before. *)
Theorem clone_repo_replaces_destination url dest branch w r :
  dest ≠ [] →
  blocked (fs w) dest = false →
  file_at (fs w) dest = None →
  git_clone env url (Some branch) None = Cloned r →
  ∃ n',
    put dest (Dir (worktree r)) (cleared (fs w) dest) = Some n' ∧
    clone_repo env url dest branch w = (Ok (), with_fs n' w) ∧
    exists_ (cleared (fs w) dest) dest = false ∧
    (∀ q, lookup n' (dest ++ q) = lookup (Dir (worktree r)) q) ∧
    (∀ q, apart dest q → lookup n' q = lookup (fs w) q).
Proof.
  intros Hd Hb Hf Hg. unfold clone_repo.
  destruct (fresh_clone_run url dest (Some branch) None r w)
    as (n' & Hput & ->); [done..|].
  exists n'. split; [done|]. split; [done|]. split; [|split].
  - unfold exists_. by rewrite cleared_lookup.
  - intros q. by eapply lookup_put_below.
  - intros q Hap. rewrite (lookup_put_apart _ _ _ _ _ Hput Hap).
    by apply cleared_apart.
Qed.

End Runs.

(** *** The locator *)

Lemma candidate_test {A} c (k : bool → M A) w :
  (let* e := path_exists c in
   let* d := (if e then path_is_dir c else ret false) in k d) w
  = k (is_dir (fs w) c) w.
Proof.
  unfold path_exists, path_is_dir, get_fs, ret, is_dir, exists_, bind. simpl.
  destruct (lookup (fs w) c) as [[d|es]|] eqn:E; simpl; rewrite ?E; reflexivity.
Qed.

Lemma first_build_dir_run repo_path folders w :
  ∃ r, first_build_dir repo_path folders w = (Ok r, w) ∧
    match r with
    | Some c =>
        ∃ i folder, folders !! i = Some folder ∧ c = div repo_path folder ∧
          is_dir (fs w) c = true ∧
          ∀ j f, j < i → folders !! j = Some f →
                 is_dir (fs w) (div repo_path f) = false
    | None => ∀ f, f ∈ folders → is_dir (fs w) (div repo_path f) = false
    end.
Proof.
  induction folders as [|folder rest IH].
  - exists None. split; [done|]. intros f Hf. by apply elem_of_nil in Hf.
  - cbn [first_build_dir]. rewrite candidate_test.
    destruct (is_dir (fs w) (div repo_path folder)) eqn:Ed.
    + exists (Some (div repo_path folder)). split; [done|].
      exists 0, folder. repeat split; [done|]. intros j f Hj. lia.
    + destruct IH as (r & Hrun & Hr). exists r. split; [done|].
      destruct r as [c|].
      * destruct Hr as (i & f & Hi & -> & Hc & Hbefore).
        exists (S i), f. repeat split; [done..|].
        intros [|j] f' Hj; simpl; [by intros [= <-]|].
        intros Hf'. eapply Hbefore; [|done]. lia.
      * intros f [->|Hf]%elem_of_cons; [done|by apply Hr].
Qed.

(** C3. For both project types, every repository path and every tree,
    [find_build_dir] raises nothing and leaves the world as it is; its
    answer is the first name of the type's list, in declared order,
    that is a directory under the repository path (every earlier name
    is not), and [None] exactly when no name of the list is one. With
    the UI list [build; dist; out] and a repository that has only
    [dist] and [out], the answer is [dist]. *)
Theorem find_build_dir_first_existing :
  (∀ (kind : project_kind) (repo_path : path) (w : world),
     ∃ folders r,
       folders = match kind with
                 | UI => ["build"; "dist"; "out"]
                 | Microservice => ["target"; "app"; "output"]
                 end ∧
       find_build_dir repo_path (kind_name kind) w = (Ok r, w) ∧
       match r with
       | Some c =>
           ∃ i folder, folders !! i = Some folder ∧ c = div repo_path folder ∧
             is_dir (fs w) c = true ∧
             ∀ j f, j < i → folders !! j = Some f →
                    is_dir (fs w) (div repo_path f) = false
       | None => ∀ f, f ∈ folders → is_dir (fs w) (div repo_path f) = false
       end) ∧
  find_build_dir ["repo"] "UI" Demo.dist_and_out
  = (Ok (Some ["repo"; "dist"]), Demo.dist_and_out).
Proof.
  split; [|reflexivity]. intros kind repo_path w.
  eexists. 
  destruct (first_build_dir_run repo_path
              match kind with
              | UI => ["build"; "dist"; "out"]
              | Microservice => ["target"; "app"; "output"]
              end w) as (r & Hrun & Hr).
  exists r. split; [reflexivity|]. split; [|done].
  unfold find_build_dir, build_dirs, bind. by destruct kind.
Qed.

(** *** The page *)

Section PageRuns.
Context (env : collaborators).

(** C8. When the build button is pressed while the URL field is empty
    or no branch is selected, [main] returns without raising, the tree
    is what it was (nothing deleted, cloned or archived), and the page
    gains exactly the warning. *)
Theorem build_rejected_without_url_or_branch inp w :
  clicked inp = Some BuildAndPackage →
  repo_url inp = "" ∨ truthy_opt (selection_at_build (session w) inp) = false →
  ∃ w', main env inp w = (Ok (), w') ∧
    fs w' = fs w ∧
    page w' = page w ++
      [Message Warning "❗ Please provide a GitHub URL and select a branch."].
Proof.
  intros Hc Hrej.
  destruct inp as [url click choice kind]. simpl in *. subst click.
  destruct w as [n [branches selected] pg]. simpl in *.
  unfold main. cbn [repo_url clicked branch_choice project_type].
  rewrite (bool_decide_eq_false_2 (Some BuildAndPackage = Some FetchBranches)) by done.
  rewrite andb_false_r.
  rewrite (bool_decide_eq_true_2 (Some BuildAndPackage = Some BuildAndPackage)) by done.
  unfold selection_at_build in Hrej. simpl in Hrej.
  assert (Hw : negb (truthy url) || negb (truthy_opt
            match default [] branches with
            | [] => default None selected
            | bs => selectbox bs choice
            end) = true).
  { destruct Hrej as [-> | ->]; [done|]. by rewrite orb_true_r. }
  destruct branches as [[|b bs]|], selected as [sel|]; simpl in Hw;
    cbv [bind get_session ret assign_branches assign_selected_branch set_session
         session_branches session_selected_branch show session ss_branches
         ss_selected_branch fs page raise];
    simpl; rewrite ?Hw; simpl; eexists; (split; [reflexivity|done]).
Qed.

End PageRuns.

(** *** The archive *)
Section Zip.
Context (env : collaborators).

Lemma filenames_cons name c es :
  filenames ((name, c) :: es)
  = match c with File _ => name :: filenames es | Dir _ => filenames es end.
Proof. unfold filenames. rewrite filter_cons. by destruct c. Qed.

Lemma write_all_app L1 L2 acc :
  write_all env (L1 ++ L2) acc
  = match write_all env L1 acc with
    | (acc', None) => write_all env L2 acc'
    | stopped => stopped
    end.
Proof.
  revert acc. induction L1 as [|f L1 IH]; intros acc; [done|].
  cbn [app write_all]. destruct (utf8_valid (str f.1)); [apply IH|done].
Qed.

(** The members written are those of a leading part of the files; all of
    them when every name can be encoded, and only then is there no
    exception. *)
Lemma write_all_take L : ∀ acc,
  ∃ k, (write_all env L acc).1 = acc ++ (member_of env <$> take k L).
Proof.
  induction L as [|f L IH]; intros acc.
  - exists 0. simpl. by rewrite app_nil_r.
  - cbn [write_all]. destruct (utf8_valid (str f.1)).
    + destruct (IH (acc ++ [member_of env f])) as [k Hk]. exists (S k).
      rewrite Hk. cbn [take fmap list_fmap]. by rewrite <- app_assoc.
    + exists 0. simpl. by rewrite app_nil_r.
Qed.

Lemma write_all_encodable L : ∀ acc,
  forallb (λ f, utf8_valid (str f.1)) L = true →
  write_all env L acc = (acc ++ (member_of env <$> L), None).
Proof.
  induction L as [|f L IH]; intros acc; simpl.
  - by rewrite app_nil_r.
  - intros [Hf HL]%andb_true_iff. rewrite Hf, IH by done.
    by rewrite <- app_assoc.
Qed.

Lemma write_all_stopped L acc e :
  (write_all env L acc).2 = Some e →
  exn_cls e = UnicodeEncodeError ∧ forallb (λ f, utf8_valid (str f.1)) L = false.
Proof.
  revert acc. induction L as [|f L IH]; intros acc; simpl; [done|].
  destruct (utf8_valid (str f.1)); simpl.
  - apply IH.
  - by intros [= <-].
Qed.

Lemma zip_files_run root source rel es acc :
  lookup root (source ++ rel) = Some (Dir es) →
  wf (Dir es) = true →
  ∀ es', es' ⊆ es →
    zip_files env root source (source ++ rel) (filenames es') acc
    = write_all env (local_files rel es') acc.
Proof.
  intros Hl Hwf es'. revert acc.
  induction es' as [|[name c] es' IH]; intros acc Hsub; [done|].
  assert (Hin : (name, c) ∈ es) by (apply Hsub; left).
  assert (Hsub' : es' ⊆ es) by (intros e He; apply Hsub; by right).
  destruct (wf_entry es name c Hwf Hin) as (Hv & _ & Hget).
  rewrite filenames_cons. destruct c as [d|sub].
  - cbn [zip_files]. rewrite div_valid_name by done.
    rewrite <- (app_assoc source rel [name]), relative_to_app.
    unfold zip_write. rewrite (app_assoc source rel [name]), lookup_app, Hl.
    simpl. rewrite Hget. unfold local_files. cbn [omap list_omap]. simpl.
    fold (local_files rel es').
    destruct (utf8_valid (str (rel ++ [name]))); [|done].
    by rewrite IH.
  - rewrite IH by done. done.
Qed.

Lemma zip_walk_run root source n :
  ∀ rel more acc,
    lookup root (source ++ rel) = Some n →
    wf n = true →
    zip_walk env root source (walk_node (source ++ rel) n ++ more) acc
    = match write_all env (files_under rel n) acc with
      | (acc', None) => zip_walk env root source more acc'
      | stopped => stopped
      end.
Proof.
  induction n as [d|es IH] using node_ind'; intros rel more acc Hl Hwf; [done|].
  rewrite Forall_forall in IH.
  assert (Hsubs : ∀ es', es' ⊆ es → ∀ acc',
    zip_walk env root source
      (flat_map (λ e, walk_node (div (source ++ rel) e.1) e.2) es' ++ more) acc'
    = match write_all env (flat_map (λ e, files_under (rel ++ [e.1]) e.2) es') acc' with
      | (acc'', None) => zip_walk env root source more acc''
      | stopped => stopped
      end).
  { induction es' as [|[name c] es' IHes]; intros Hsub acc'; [done|].
    assert (Hin : (name, c) ∈ es) by (apply Hsub; left).
    destruct (wf_entry es name c Hwf Hin) as (Hv & Hwc & Hget).
    cbn [flat_map]. simpl fst; simpl snd. rewrite div_valid_name by done.
    rewrite <- (app_assoc source rel [name]), <- app_assoc.
    rewrite (IH _ Hin);
      [|by rewrite app_assoc, lookup_app, Hl; simpl; rewrite Hget|done].
    rewrite write_all_app. cbn [snd].
    destruct (write_all env (files_under (rel ++ [name]) c) acc') as [acc1 [e|]];
      [done|].
    apply IHes. intros e He. apply Hsub. by right. }
  cbn [walk_node files_under]. rewrite <- app_comm_cons. cbn [zip_walk].
  rewrite (zip_files_run root source rel es acc Hl Hwf es) by reflexivity.
  rewrite write_all_app.
  destruct (write_all env (local_files rel es) acc) as [acc1 [e|]]; [done|].
  by apply Hsubs.
Qed.

Lemma zip_members root source es :
  lookup root source = Some (Dir es) →
  wf (Dir es) = true →
  zip_walk env root source (os_walk root source) []
  = write_all env (files_under [] (Dir es)) [].
Proof.
  intros Hl Hwf. unfold os_walk. rewrite Hl.
  pose proof (zip_walk_run root source (Dir es) [] [] []) as H.
  rewrite !app_nil_r in H. rewrite H by done.
  by destruct (write_all env (files_under [] (Dir es)) []) as [acc [e|]].
Qed.
End Zip.

(** *** Reading the archive back *)

Lemma below_irrefl (p : path) : ¬ below p p.
Proof.
  intros (r & Hr & Hp). apply Hr.
  rewrite <- (app_nil_r p) in Hp at 1. by apply app_inv_head in Hp.
Qed.

Lemma apart_irrefl (p : path) : ¬ apart p p.
Proof. intros [H _]. by apply H. Qed.

Section Extract.
Context (env : collaborators).
Hypothesis codec : ∀ d, inflate env (deflate env d) = d.

Lemma extract_member_step dest L p d :
  holds dest L →
  conflict_free (L ++ [(p, d)]) →
  ∃ dest', extract_member (inflate env) dest (member_of env (p, d)) = Some dest'
           ∧ holds dest' (L ++ [(p, d)]).
Proof.
  intros [Hfile Hdir] (Hvalid & Hfun & Hfree).
  assert (HpL : (p, d) ∈ L ++ [(p, d)]) by (apply elem_of_app; right; by left).
  destruct (Hvalid p d HpL) as [Hne Hnames].
  unfold extract_member, member_of. simpl.
  rewrite member_path_str, endswith_str, codec by done.
  assert (Hnd : is_dir dest p = false).
  { destruct (is_dir dest p) eqn:E; [|done].
    destruct (Hdir p E) as [->|(p' & d' & Hin & Hbelow)]; [done|].
    exfalso. eapply (Hfree p' p); [apply elem_of_app; by left|done|done]. }
  assert (Hnb : blocked dest p = false).
  { destruct (blocked dest p) eqn:E; [|done].
    apply blocked_file_prefix in E as (q & d0 & Hbelow & Hq).
    exfalso. eapply (Hfree p q d d0); [done| |done].
    apply elem_of_app; left. apply Hfile. unfold file_at. by rewrite Hq. }
  destruct (put_is_Some p (File d) dest Hnb) as [dest' Hput].
  exists dest'. split.
  { unfold is_dir in Hnd. by destruct (lookup dest p) as [[|]|]. }
  split.
  - intros q d1. rewrite elem_of_app, list_elem_of_singleton.
    destruct (path_trichotomy p q) as [->|[Hap|[Hb|Hb]]].
    + unfold file_at. rewrite (lookup_put_eq _ _ _ _ Hput). split.
      * intros [= ->]. by right.
      * intros Hin. f_equal. eapply Hfun; [done|].
        apply elem_of_app. destruct Hin as [?|[= ->]]; [by left|right; by left].
    + unfold file_at. rewrite (lookup_put_apart _ _ _ _ _ Hput Hap).
      fold (file_at dest q). rewrite Hfile. split; [by left|].
      intros [?|[= -> ->]]; [done|]. by apply apart_irrefl in Hap.
    + destruct Hb as (r & Hr & ->).
      pose proof (put_ancestor_dir _ _ _ _ _ Hput Hr) as Hd.
      unfold is_dir in Hd. unfold file_at.
      destruct (lookup dest' q) as [[|]|]; [done| |done].
      split; [done|]. intros Hin. exfalso.
      eapply (Hfree (q ++ r) q d d1); [done| |by exists r].
      apply elem_of_app. destruct Hin as [?|[= Hq _]]; [by left|].
      exfalso. apply Hr. rewrite <- (app_nil_r q) in Hq at 1.
      by apply app_inv_head in Hq.
    + destruct Hb as (r & Hr & ->).
      unfold file_at. rewrite (lookup_put_below _ _ _ _ _ Hput).
      destruct r as [|x r]; [done|]. simpl. split; [done|].
      intros Hin. exfalso.
      eapply (Hfree (p ++ x :: r) p d1 d); [|done|by exists (x :: r)].
      apply elem_of_app. destruct Hin as [?|[= Hq ->]]; [by left|].
      exfalso. rewrite <- (app_nil_r p) in Hq at 2. by apply app_inv_head in Hq.
  - intros q Hq.
    destruct (path_trichotomy p q) as [->|[Hap|[Hb|Hb]]].
    + unfold is_dir in Hq. by rewrite (lookup_put_eq _ _ _ _ Hput) in Hq.
    + unfold is_dir in Hq. rewrite (lookup_put_apart _ _ _ _ _ Hput Hap) in Hq.
      destruct (Hdir q Hq) as [->|(p' & d' & Hin & Hbelow)]; [by left|].
      right. exists p', d'. split; [|done]. apply elem_of_app. by left.
    + right. by exists p, d.
    + destruct Hb as (r & Hr & ->). unfold is_dir in Hq.
      rewrite (lookup_put_below _ _ _ _ _ Hput) in Hq. by destruct r.
Qed.

Lemma conflict_free_app_l L1 L2 : conflict_free (L1 ++ L2) → conflict_free L1.
Proof.
  intros (Hv & Hf & Hfree). split; [|split].
  - intros p d Hin. eapply Hv. apply elem_of_app. by left.
  - intros p d d' H1 H2. eapply Hf; apply elem_of_app; by left.
  - intros p q d d' H1 H2. eapply Hfree; apply elem_of_app; by left.
Qed.

Lemma extract_into_run todo : ∀ L dest,
  holds dest L →
  conflict_free (L ++ todo) →
  ∃ out, extract_into (inflate env) dest (member_of env <$> todo) = Some out
         ∧ holds out (L ++ todo).
Proof.
  induction todo as [|[p d] todo IH]; intros L dest Hh Hcf.
  - exists dest. rewrite app_nil_r. done.
  - rewrite (cons_middle (p, d) L todo), app_assoc in Hcf |- *.
    destruct (extract_member_step dest L p d Hh) as (dest' & Hstep & Hh');
      [by eapply conflict_free_app_l|].
    destruct (IH _ _ Hh' Hcf) as (out & Hout & Hhout).
    exists out. split; [|done].
    rewrite fmap_cons. cbn [extract_into]. by rewrite Hstep.
Qed.

Lemma holds_empty : holds (Dir []) [].
Proof.
  split.
  - intros [|x q] d; unfold file_at; simpl; (split; [done|by intros ?%elem_of_nil]).
  - intros [|x q]; [by left|done].
Qed.

Lemma extractall_run L :
  conflict_free L →
  ∃ out, extractall (inflate env) (member_of env <$> L) = Some out ∧ holds out L.
Proof. intros Hcf. by apply (extract_into_run L [] (Dir []) holds_empty). Qed.

Lemma files_under_conflict_free n :
  wf n = true → conflict_free (files_under [] n).
Proof.
  intros Hwf. split; [|split].
  - intros p d (q & Hq & -> & Hf)%elem_of_files_under; [|done].
    split; [done|]. by eapply file_at_valid.
  - intros p d d' (q & _ & -> & Hq)%elem_of_files_under
      (q' & _ & Heq & Hq')%elem_of_files_under; [|done..].
    simpl in Heq. subst q'. congruence.
  - intros p q d d' (p0 & _ & -> & Hp)%elem_of_files_under
      (q0 & _ & -> & Hq)%elem_of_files_under; [|done..].
    simpl. by eapply file_at_not_below.
Qed.

End Extract.

Section ZipRun.
Context (env : collaborators).

Lemma write_file_run zip data w q x es :
  zip = q ++ [x] →
  lookup (fs w) q = Some (Dir es) →
  is_dir (fs w) zip = false →
  ∃ n', put zip (File data) (fs w) = Some n' ∧
        write_file zip data w = (Ok (), with_fs n' w).
Proof.
  intros -> Hq Hz.
  destruct (put_is_Some (q ++ [x]) (File data) (fs w)) as [n' Hput];
    [by eapply blocked_under_dir|].
  exists n'. split; [done|].
  unfold write_file, bind, get_fs. simpl. rewrite parent_snoc.
  unfold is_dir in *. rewrite Hq, Hput.
  by destruct (lookup (fs w) (q ++ [x])) as [[|]|].
Qed.

(** The run of [zip_directory] on a well-formed source, with an archive
    path outside it that can be written: the container of what the walk
    wrote is left at the archive path, and the exception that stopped
    the walk, if any, is raised after that. *)
Lemma zip_directory_run source zip w es :
  lookup (fs w) source = Some (Dir es) →
  wf (Dir es) = true →
  is_dir (fs w) (parent zip) = true →
  is_dir (fs w) zip = false →
  ¬ source `prefix_of` zip →
  ∃ n',
    zip_directory env source zip w
    = (match (write_all env (files_under [] (Dir es)) []).2 with
       | None => Ok ()
       | Some e => Raise e
       end, with_fs n' w) ∧
    file_at n' zip
      = Some (zip_container env (write_all env (files_under [] (Dir es)) []).1) ∧
    (∀ q, apart zip q → lookup n' q = lookup (fs w) q).
Proof.
  intros Hsrc Hwf Hpar Hzip Hout.
  assert (Hne : zip ≠ []).
  { intros ->. unfold parent in Hpar. simpl in Hpar. congruence. }
  destruct (path_snoc zip Hne) as (q & x & ->). rewrite parent_snoc in Hpar.
  assert (Hq : ∃ qs, lookup (fs w) q = Some (Dir qs)).
  { unfold is_dir in Hpar. destruct (lookup (fs w) q) as [[|qs]|]; [done| |done].
    by exists qs. }
  destruct Hq as [qs Hq].
  assert (Hap : apart (q ++ [x]) source).
  { split; [|done]. intros [k ->]. rewrite lookup_app in Hsrc.
    unfold is_dir in Hzip.
    destruct (lookup (fs w) (q ++ [x])) as [[d|]|]; [|done..].
    simpl in Hsrc. by destruct k. }
  destruct (write_file_run (q ++ [x]) [] w q x qs) as (n1 & Hput1 & Hrun1); [done..|].
  assert (Hsrc1 : lookup n1 source = Some (Dir es)).
  { by rewrite (lookup_put_apart _ _ _ _ _ Hput1 Hap). }
  assert (Hq1 : ∃ qs1, lookup n1 q = Some (Dir qs1)).
  { pose proof (put_ancestor_dir q [x] _ _ _ Hput1) as Hd. unfold is_dir in Hd.
    destruct (lookup n1 q) as [[|qs1]|]; [by discriminate Hd| |by discriminate Hd].
    by exists qs1. }
  destruct Hq1 as [qs1 Hq1].
  destruct (write_file_run (q ++ [x])
              (zip_container env (write_all env (files_under [] (Dir es)) []).1)
              (with_fs n1 w) q x qs1)
    as (n2 & Hput2 & Hrun2); [done|done| |].
  { unfold is_dir. simpl. by rewrite (lookup_put_eq _ _ _ _ Hput1). }
  exists n2. split; [|split].
  - unfold zip_directory. unfold bind at 1. rewrite Hrun1.
    unfold bind at 1, get_fs. cbn [fs with_fs].
    rewrite (zip_members env n1 source es Hsrc1 Hwf).
    unfold bind at 1. rewrite Hrun2.
    destruct (write_all env (files_under [] (Dir es)) []) as [acc [e|]];
      cbn [fst snd]; by destruct w.
  - unfold file_at. by rewrite (lookup_put_eq _ _ _ _ Hput2).
  - intros p Hp. simpl in Hput2.
    rewrite (lookup_put_apart _ _ _ _ _ Hput2 Hp).
    by rewrite (lookup_put_apart _ _ _ _ _ Hput1 Hp).
Qed.

End ZipRun.

Section Archive.
Context (env : collaborators).
Hypothesis codec : ∀ d, inflate env (deflate env d) = d.

Lemma elem_of_members es m :
  wf (Dir es) = true →
  m ∈ member_of env <$> files_under [] (Dir es) →
  ∃ p d, p ≠ [] ∧ Forall (λ s, valid_name s = true) p ∧
         file_at (Dir es) p = Some d ∧ m = (str p, deflate env d).
Proof.
  intros Hwf ([p d] & -> & Hin)%list_elem_of_fmap.
  apply elem_of_files_under in Hin as (q & Hq & -> & Hf); [|done].
  exists q, d. split; [done|]. split; [by eapply file_at_valid|]. done.
Qed.


(** The members written are those of the files walked before the
    first name that cannot be encoded; they extract to a tree that holds
    exactly these files. *)
Lemma written_members es :
  wf (Dir es) = true →
  ∃ k out,
    (write_all env (files_under [] (Dir es)) []).1
    = member_of env <$> take k (files_under [] (Dir es)) ∧
    extractall (inflate env) (member_of env <$> take k (files_under [] (Dir es)))
    = Some out ∧
    holds out (take k (files_under [] (Dir es))).
Proof.
  intros Hwf.
  destruct (write_all_take env (files_under [] (Dir es)) []) as [k Hk].
  assert (Hcf : conflict_free (take k (files_under [] (Dir es)))).
  { apply (conflict_free_app_l _ (drop k (files_under [] (Dir es)))).
    rewrite take_drop. by apply files_under_conflict_free. }
  destruct (extractall_run env codec _ Hcf) as (out & Hext & Hholds).
  by exists k, out.
Qed.


(** C10. Take a well-formed directory tree at [source_dir], an archive
    path outside it whose parent directory exists and which is not a
    directory itself, and a lossless codec. Whether [zip_directory]
    returns or is stopped by a name it cannot encode, the archive it
    leaves is the container of the members written so far; every one of
    them is a regular file of the source (its name is the file's
    relative path, its payload the file's deflated bytes) and none is a
    directory entry. So when the source has an empty sub-directory, no
    member lies at or below it, and extraction, which succeeds, creates
    nothing there. When every relative path is valid UTF-8 the call
    returns and every regular file of the source is a member; otherwise
    it raises [UnicodeEncodeError]. *)
Theorem zip_directory_skips_directories source_dir zip_path w es :
  lookup (fs w) source_dir = Some (Dir es) →
  wf (Dir es) = true →
  is_dir (fs w) (parent zip_path) = true →
  is_dir (fs w) zip_path = false →
  ¬ source_dir `prefix_of` zip_path →
  ∃ members out r w',
    zip_directory env source_dir zip_path w = (r, w') ∧
    file_at (fs w') zip_path = Some (zip_container env members) ∧
    (∀ m, m ∈ members →
       endswith slash m.1 = false ∧
       ∃ p d, file_at (Dir es) p = Some d ∧ m = (str p, deflate env d)) ∧
    extractall (inflate env) members = Some out ∧
    (∀ q, q ≠ [] → lookup (Dir es) q = Some (Dir []) →
       (∀ m, m ∈ members → ¬ q `prefix_of` member_path m.1) ∧
       exists_ out q = false) ∧
    (names_encodable (Dir es) = true →
       r = Ok () ∧
       ∀ p d, file_at (Dir es) p = Some d → (str p, deflate env d) ∈ members) ∧
    (names_encodable (Dir es) = false →
       ∃ e, r = Raise e ∧ exn_cls e = UnicodeEncodeError).
Proof.
  intros Hsrc Hwf Hpar Hzip Hout.
  destruct (zip_directory_run env source_dir zip_path w es)
    as (n' & Hrun & Hfile & _); [done..|].
  destruct (written_members es Hwf) as (k & out & Hk & Hext & Hholds).
  set (L := files_under [] (Dir es)) in *.
  exists (member_of env <$> take k L), out,
    (match (write_all env L []).2 with None => Ok () | Some e => Raise e end),
    (with_fs n' w).
  split; [done|]. split; [by rewrite <- Hk|].
  assert (Hmem : ∀ m, m ∈ member_of env <$> take k L →
            ∃ p d, p ≠ [] ∧ Forall (λ s, valid_name s = true) p ∧
                   file_at (Dir es) p = Some d ∧ m = (str p, deflate env d)).
  { intros m Hm. apply elem_of_members; [done|].
    apply list_elem_of_fmap in Hm as (f & -> & Hf).
    apply list_elem_of_fmap. exists f. split; [done|].
    by apply (subseteq_take k L). }
  assert (Hempty : ∀ q j d, lookup (Dir es) q = Some (Dir []) →
                            file_at (Dir es) (q ++ j) = Some d → False).
  { intros q j d Hq Hf. unfold file_at in Hf. rewrite lookup_app, Hq in Hf.
    by destruct j. }
  split; [|split; [done|]]; [|split; [|split]].
  - intros m (p & d & Hp & Hnames & Hf & ->)%Hmem.
    split; [by apply endswith_str|]. by exists p, d.
  - intros q Hq Hdir. split.
    + intros m (p & d & Hp & Hnames & Hf & ->)%Hmem [j Hj].
      simpl in Hj. rewrite member_path_str in Hj by done. subst p.
      by eapply Hempty.
    + destruct Hholds as [Hfiles Hdirs]. unfold exists_.
      destruct (lookup out q) as [[d|sub]|] eqn:E; [| |done]; exfalso.
      * assert (Hf : file_at out q = Some d) by (unfold file_at; by rewrite E).
        apply Hfiles, (subseteq_take k L), elem_of_files_under in Hf
          as (q' & _ & Heq & Hf); [|done].
        simpl in Heq. subst q'. unfold file_at in Hf. by rewrite Hdir in Hf.
      * assert (Hd : is_dir out q = true) by (unfold is_dir; by rewrite E).
        destruct (Hdirs q Hd) as [->|(p & d & Hin & (j & _ & ->))]; [done|].
        apply (subseteq_take k L), elem_of_files_under in Hin
          as (q' & _ & Heq & Hf); [|done].
        simpl in Heq. subst q'. by eapply Hempty.
  - intros Henc. unfold names_encodable in Henc. fold L in Henc.
    pose proof (write_all_encodable env L [] Henc) as Hall.
    rewrite Hall in Hk |- *. cbn [fst snd app] in Hk |- *.
    split; [done|]. intros p d Hf. rewrite <- Hk.
    apply list_elem_of_fmap. exists (p, d). split; [done|].
    apply elem_of_files_under; [done|]. exists p. split; [|done].
    intros ->. unfold file_at in Hf. by simpl in Hf.
  - intros Henc. unfold names_encodable in Henc. fold L in Henc.
    destruct (write_all env L []) as [acc [e|]] eqn:Hw; cbn [snd].
    + exists e. split; [done|].
      apply (write_all_stopped env L [] e). by rewrite Hw.
    + exfalso.
      assert (Hs : forallb (λ f, utf8_valid (str f.1)) L = true); [|congruence].
      clear -Hw. revert Hw. generalize (@nil zip_entry).
      induction L as [|f L IH]; intros acc0 Hw; [done|].
      cbn [write_all forallb] in *.
      destruct (utf8_valid (str f.1)); [|done]. simpl. by eapply IH.
Qed.

End Archive.

(** *** Runs on the sample worlds *)

(** C1. The listing is sorted and free of duplicates whatever the
    references are (lemmas [sorted_sorted_set] and [NoDup_sorted_set]),
    but it is not the set of the remote branch names. The clone is made
    with [depth=1], so it holds [origin/HEAD] and the default branch
    only. On a remote with the branches [main], [dev], [feature/x] and
    [bugfix/x] whose default branch is [main], [get_branches] returns
    [HEAD; main]: the branch [dev] is missing and [HEAD] is no branch of
    the remote. When the default branch is [feature/x] it returns
    [HEAD; x]: [feature/x] is missing and [x] is no branch of the
    remote. *)
Theorem get_branches_loses_hierarchical_names :
  Demo.demo_branches = ["main"; "dev"; "feature/x"; "bugfix/x"] ∧
  (git_clone Demo.demo_client Demo.demo_url None (Some 1)
   = Cloned {| worktree := Demo.demo_worktree; remote_refs := Ok Demo.demo_refs |} ∧
   Demo.demo_refs = ["origin/HEAD"; "origin/main"] ∧
   get_branches Demo.demo_client Demo.demo_url Demo.empty_workspace
   = (Ok ["HEAD"; "main"], Demo.empty_workspace) ∧
   ("dev" ∈ Demo.demo_branches) ∧ ("dev" ∉ ["HEAD"; "main"]) ∧
   ("HEAD" ∉ Demo.demo_branches)) ∧
  (git_clone Demo.feature_client Demo.demo_url None (Some 1)
   = Cloned {| worktree := Demo.demo_worktree; remote_refs := Ok Demo.feature_refs |} ∧
   Demo.feature_refs = ["origin/HEAD"; "origin/feature/x"] ∧
   (remote_head <$> Demo.feature_refs) = ["HEAD"; "feature/x"] ∧
   get_branches Demo.feature_client Demo.demo_url Demo.empty_workspace
   = (Ok ["HEAD"; "x"], Demo.empty_workspace) ∧
   ("feature/x" ∈ Demo.demo_branches) ∧ ("feature/x" ∉ ["HEAD"; "x"]) ∧
   ("x" ∉ Demo.demo_branches)).
Proof.
  split; [reflexivity|].
  split; (split; [reflexivity|]); (split; [reflexivity|]).
  - split; [by vm_compute|].
    repeat split; apply (bool_decide_unpack _); by vm_compute.
  - split; [reflexivity|]. split; [by vm_compute|].
    repeat split; apply (bool_decide_unpack _); by vm_compute.
Qed.

(** C2, as stated, fails: for [https://example.com/demo.git] and the
    branch [main] the derived paths are not [workspace/demo-main] and
    [workspace/demo-main-UI.zip]. *)
Lemma demo_clone_path_is_not_demo_main :
  ¬ (str (repo_path_of Demo.demo_url "main") = "workspace/demo-main" ∧
     str (div WORKSPACE_DIR (zip_filename_of Demo.demo_url "main" "UI"))
     = "workspace/demo-main-UI.zip").
Proof. intros [H _]. vm_compute in H. discriminate H. Qed.

(** C2, amended. For the URL [https://example.com/demo.git], the branch
    [main] and the type UI, the repository name used in both derived
    paths is the last segment of the URL, [demo.git]: the clone path is
    [workspace/demo.git-main] and the archive
    [workspace/demo.git-main-UI.zip]. Fetching the branches and then
    building creates exactly these two, and nothing named
    [workspace/demo-main] or [workspace/demo-main-UI.zip]. *)
Theorem demo_paths_keep_the_last_url_segment :
  repo_name_of Demo.demo_url = "demo.git" ∧
  str (repo_path_of Demo.demo_url "main") = "workspace/demo.git-main" ∧
  str (div WORKSPACE_DIR (zip_filename_of Demo.demo_url "main" "UI"))
  = "workspace/demo.git-main-UI.zip" ∧
  ∃ w1 w2,
    main Demo.demo_client Demo.fetch_click Demo.empty_workspace = (Ok (), w1) ∧
    main Demo.demo_client Demo.build_click w1 = (Ok (), w2) ∧
    is_dir (fs w2) ["workspace"; "demo.git-main"] = true ∧
    is_Some (file_at (fs w2) ["workspace"; "demo.git-main-UI.zip"]) ∧
    exists_ (fs w2) ["workspace"; "demo-main"] = false ∧
    exists_ (fs w2) ["workspace"; "demo-main-UI.zip"] = false.
Proof.
  split; [reflexivity|]. split; [reflexivity|]. split; [reflexivity|].
  eexists _, _. split; [by vm_compute|]. split; [by vm_compute|].
  vm_compute. repeat split; by eexists.
Qed.


(** C6. The temporary directory is removed when the listing succeeds
    (lemma [get_branches_cleans_up_on_success]) but not when it fails:
    with a client whose reference listing raises after the clone, and
    with a client whose clone stops part-way and leaves what it had
    written, [get_branches] raises and [workspace/temp_repo] is still
    there. *)
Theorem get_branches_leaves_temp_repo_on_failure :
  (∃ e w',
     get_branches Demo.refless_client Demo.demo_url Demo.empty_workspace = (Raise e, w') ∧
     is_dir (fs w') (div WORKSPACE_DIR "temp_repo") = true) ∧
  (∃ e w',
     get_branches Demo.interrupted_client Demo.demo_url Demo.empty_workspace = (Raise e, w') ∧
     is_dir (fs w') (div WORKSPACE_DIR "temp_repo") = true).
Proof. split; eexists _, _; (split; [by vm_compute|reflexivity]). Qed.

(** C7. Not every failure is turned into a message. When a directory
    sits at the archive path, the build action clones, locates, and then
    [zip_directory] raises [IsADirectoryError] out of [main], with no
    error line on the page; when a regular file sits at
    [workspace/temp_repo], the fetch action lets [NotADirectoryError]
    out of [main], which is not a [GitCommandError], and the page stays
    empty. *)
Theorem main_lets_failures_escape :
  (∃ e w',
     main Demo.demo_client Demo.build_click Demo.archive_path_taken = (Raise e, w') ∧
     exn_cls e = IsADirectoryError ∧
     Forall (λ el, ∀ t, el ≠ Message Error t) (page w')) ∧
  (∃ e w',
     main Demo.demo_client Demo.fetch_click Demo.temp_repo_is_a_file = (Raise e, w') ∧
     exn_cls e = NotADirectoryError ∧
     page w' = []).
Proof.
  split; eexists _, _; (split; [by vm_compute|]); (split; [reflexivity|]).
  - cbn [page]. repeat constructor; done.
  - reflexivity.
Qed.

(** *** The theorems at the sample worlds *)

Lemma get_branches_reports_last_segments_witness :
  ∃ bs w',
    get_branches Demo.feature_client Demo.demo_url Demo.empty_workspace = (Ok bs, w') ∧
    (∀ b, b ∈ bs ↔ ∃ name, name ∈ Demo.feature_refs ∧ b = last_segment name) ∧
    NoDup bs ∧
    Forall (λ b, contains slash b = false) bs ∧
    ("origin/feature/x" ∈ Demo.feature_refs → "x" ∈ bs ∧ "feature/x" ∉ bs) ∧
    ("origin/HEAD" ∈ Demo.feature_refs → "HEAD" ∈ bs).
Proof.
  apply (get_branches_reports_last_segments Demo.feature_client Demo.demo_url
           Demo.empty_workspace
           {| worktree := Demo.demo_worktree; remote_refs := Ok Demo.feature_refs |}
           Demo.feature_refs); reflexivity.
Defined.

Lemma clone_repo_replaces_destination_witness :
  ∃ n',
    put ["workspace"; "demo.git-main"] (Dir Demo.demo_worktree)
      (cleared (fs Demo.stale_clone) ["workspace"; "demo.git-main"]) = Some n' ∧
    clone_repo Demo.demo_client Demo.demo_url ["workspace"; "demo.git-main"] "main"
      Demo.stale_clone = (Ok (), with_fs n' Demo.stale_clone) ∧
    exists_ (cleared (fs Demo.stale_clone) ["workspace"; "demo.git-main"])
      ["workspace"; "demo.git-main"] = false ∧
    (∀ q, lookup n' (["workspace"; "demo.git-main"] ++ q)
          = lookup (Dir Demo.demo_worktree) q) ∧
    (∀ q, apart ["workspace"; "demo.git-main"] q →
          lookup n' q = lookup (fs Demo.stale_clone) q).
Proof.
  apply (clone_repo_replaces_destination Demo.demo_client Demo.demo_url
           ["workspace"; "demo.git-main"] "main" Demo.stale_clone
           {| worktree := Demo.demo_worktree;
              remote_refs := Ok (Demo.refs_after_clone "main" (Some "main") None) |});
    [discriminate | reflexivity | reflexivity | reflexivity].
Defined.

Lemma build_rejected_without_url_or_branch_witness :
  ∃ w', main Demo.demo_client Demo.build_click_no_url Demo.empty_workspace = (Ok (), w') ∧
    fs w' = fs Demo.empty_workspace ∧
    page w' = page Demo.empty_workspace ++
      [Message Warning "❗ Please provide a GitHub URL and select a branch."].
Proof.
  apply (build_rejected_without_url_or_branch Demo.demo_client
           Demo.build_click_no_url Demo.empty_workspace);
    [reflexivity | left; reflexivity].
Defined.


Lemma zip_directory_skips_directories_witness :
  ∃ members out r w',
    zip_directory Demo.demo_client ["workspace"; "odd-main"; "build"]
      ["workspace"; "odd-main-UI.zip"] Demo.odd_build = (r, w') ∧
    file_at (fs w') ["workspace"; "odd-main-UI.zip"]
    = Some (zip_container Demo.demo_client members) ∧
    (∀ m, m ∈ members →
       endswith slash m.1 = false ∧
       ∃ p d, file_at (Dir Demo.odd_tree) p = Some d
              ∧ m = (str p, deflate Demo.demo_client d)) ∧
    extractall (inflate Demo.demo_client) members = Some out ∧
    (∀ q, q ≠ [] → lookup (Dir Demo.odd_tree) q = Some (Dir []) →
       (∀ m, m ∈ members → ¬ q `prefix_of` member_path m.1) ∧
       exists_ out q = false) ∧
    (names_encodable (Dir Demo.odd_tree) = true →
       r = Ok () ∧
       ∀ p d, file_at (Dir Demo.odd_tree) p = Some d →
              (str p, deflate Demo.demo_client d) ∈ members) ∧
    (names_encodable (Dir Demo.odd_tree) = false →
       ∃ e, r = Raise e ∧ exn_cls e = UnicodeEncodeError).
Proof.
  apply (zip_directory_skips_directories Demo.demo_client (λ d, eq_refl)
           ["workspace"; "odd-main"; "build"]
           ["workspace"; "odd-main-UI.zip"] Demo.odd_build Demo.odd_tree);
    [reflexivity | by vm_compute | reflexivity | reflexivity |].
  intros [k Hk]. discriminate Hk.
Defined.

(** ** Further facts, by function *)

Section BranchRuns.
Context (env : collaborators).

Lemma get_branches_run_ok url w r refs :
  blocked (fs w) (div WORKSPACE_DIR "temp_repo") = false →
  file_at (fs w) (div WORKSPACE_DIR "temp_repo") = None →
  git_clone env url None (Some 1) = Cloned r →
  remote_refs r = Ok refs →
  ∃ n', put (div WORKSPACE_DIR "temp_repo") (Dir (worktree r))
          (cleared (fs w) (div WORKSPACE_DIR "temp_repo")) = Some n' ∧
    get_branches env url w
    = (Ok (sorted_set (last_segment <$> refs)),
       with_fs (remove (div WORKSPACE_DIR "temp_repo") n') w).
Proof.
  intros Hb Hf Hg Hr. unfold get_branches.
  destruct (fresh_clone_run env url (div WORKSPACE_DIR "temp_repo") None (Some 1) r w)
    as (n' & Hput & ->); [done..|].
  exists n'. split; [done|].
  unfold bind at 1, lift. rewrite Hr.
  unfold bind at 1. erewrite rmtree_dir; [|done|].
  2:{ cbn [fs with_fs]. by apply lookup_put_eq in Hput. }
  reflexivity.
Qed.

(** X1. When the clone succeeds and the references are read,
    [get_branches] returns its list in ascending byte order with no
    entry twice, and leaves the world tidy: [workspace/temp_repo] does
    not exist, every path that is neither below it nor on the way to it
    reads as before, and the session and the page are untouched. *)
Theorem get_branches_sorted_and_tidy url w r refs :
  blocked (fs w) (div WORKSPACE_DIR "temp_repo") = false →
  file_at (fs w) (div WORKSPACE_DIR "temp_repo") = None →
  git_clone env url None (Some 1) = Cloned r →
  remote_refs r = Ok refs →
  ∃ bs w',
    get_branches env url w = (Ok bs, w') ∧
    StronglySorted String.le bs ∧
    (∀ i j a b, i < j → bs !! i = Some a → bs !! j = Some b → a ≠ b) ∧
    session w' = session w ∧ page w' = page w ∧
    exists_ (fs w') (div WORKSPACE_DIR "temp_repo") = false ∧
    (∀ q, apart (div WORKSPACE_DIR "temp_repo") q → lookup (fs w') q = lookup (fs w) q).
Proof.
  intros Hb Hf Hg Hr.
  destruct (get_branches_run_ok url w r refs) as (n' & Hput & Hrun); [done..|].
  eexists _, _. split; [exact Hrun|].
  split; [apply sorted_sorted_set|]. split.
  { intros i j a b Hij Hi Hj ->.
    pose proof (NoDup_sorted_set (last_segment <$> refs)) as Hnd.
    rewrite NoDup_alt in Hnd. specialize (Hnd i j b Hi Hj). lia. }
  split; [done|]. split; [done|]. split.
  - unfold exists_. cbn [fs with_fs]. by rewrite lookup_remove_eq.
  - intros q Hap. cbn [fs with_fs]. rewrite lookup_remove_apart by done.
    rewrite (lookup_put_apart _ _ _ _ _ Hput Hap). by apply cleared_apart.
Qed.

Lemma clear_step_file {A} p d (k : M A) w :
  p ≠ [] → lookup (fs w) p = Some (File d) →
  (let* e := path_exists p in (if e then rmtree p else ret ()) ;;; k) w
  = (Raise (Exn NotADirectoryError (str p)), w).
Proof.
  intros Hp Hl. unfold bind at 1. unfold path_exists, bind at 1, get_fs, ret.
  cbn beta iota. unfold exists_. rewrite Hl. unfold bind at 1.
  unfold rmtree, bind at 1, get_fs. cbn beta iota.
  destruct p; [done|]. by rewrite Hl.
Qed.

Lemma clear_step_ok {A} p (k : M A) w :
  p ≠ [] → file_at (fs w) p = None →
  (let* e := path_exists p in (if e then rmtree p else ret ()) ;;; k) w
  = k (with_fs (cleared (fs w) p) w).
Proof.
  intros Hp Hf. unfold bind at 1. unfold path_exists, bind at 1, get_fs, ret.
  cbn beta iota. unfold cleared, exists_. unfold file_at in Hf.
  destruct (lookup (fs w) p) as [[d|es]|] eqn:E; [done| |].
  - unfold bind at 1. by erewrite rmtree_dir.
  - unfold bind at 1. by destruct w.
Qed.

Lemma clone_from_failed url dest branch depth msg residue w :
  occupied (fs w) dest = false →
  blocked (fs w) dest = false →
  git_clone env url branch depth = CloneFailed msg residue →
  ∃ n', clone_from env url dest branch depth w
        = (Raise (Exn GitCommandError msg), with_fs n' w) ∧
        match residue with
        | Some partial => put dest partial (fs w) = Some n'
        | None => n' = fs w
        end.
Proof.
  intros Ho Hb Hg. unfold clone_from, bind at 1, get_fs. cbn beta iota.
  rewrite Ho, Hg. destruct residue as [partial|].
  - destruct (put_is_Some dest partial (fs w) Hb) as [n' Hn']. exists n'.
    rewrite Hn'. split; [|done]. reflexivity.
  - exists (fs w). split; [|done]. by destruct w.
Qed.

(** X2. When a regular file sits at [workspace/temp_repo],
    [get_branches] raises [NotADirectoryError] from the first
    [shutil.rmtree], before any clone, and changes nothing. *)
Theorem get_branches_temp_repo_is_file url w d :
  lookup (fs w) (div WORKSPACE_DIR "temp_repo") = Some (File d) →
  ∃ e, get_branches env url w = (Raise e, w) ∧ exn_cls e = NotADirectoryError.
Proof.
  intros Hl. unfold get_branches. cbv zeta.
  rewrite (clear_step_file _ d) by done. by eexists.
Qed.

Lemma get_branches_failed_run url w msg residue :
  blocked (fs w) (div WORKSPACE_DIR "temp_repo") = false →
  file_at (fs w) (div WORKSPACE_DIR "temp_repo") = None →
  git_clone env url None (Some 1) = CloneFailed msg residue →
  ∃ w',
    get_branches env url w = (Raise (Exn GitCommandError msg), w') ∧
    lookup (fs w') (div WORKSPACE_DIR "temp_repo") = residue ∧
    session w' = session w ∧ page w' = page w ∧
    (∀ q, apart (div WORKSPACE_DIR "temp_repo") q → lookup (fs w') q = lookup (fs w) q).
Proof.
  intros Hb Hf Hg. unfold get_branches. cbv zeta.
  rewrite clear_step_ok by done.
  destruct (clone_from_failed url (div WORKSPACE_DIR "temp_repo") None (Some 1) msg residue
              (with_fs (cleared (fs w) (div WORKSPACE_DIR "temp_repo")) w))
    as (n' & Hrun & Hn'); [|by apply cleared_blocked|done|].
  { unfold occupied. cbn [fs with_fs]. by rewrite cleared_lookup. }
  unfold bind at 1. rewrite Hrun. eexists. split; [reflexivity|].
  cbn [fs with_fs session page] in *. destruct residue as [partial|].
  - split; [by eapply lookup_put_eq|]. split; [done|]. split; [done|].
    intros q Hap. rewrite (lookup_put_apart _ _ _ _ _ Hn' Hap). by apply cleared_apart.
  - subst n'. split; [by apply cleared_lookup|]. split; [done|]. split; [done|].
    intros q Hap. by apply cleared_apart.
Qed.

(** X3. When the shallow clone fails, [get_branches] raises the
    client's [GitCommandError] with its message; a [temp_repo] left by
    an earlier listing has been removed before the attempt, so what is at
    [workspace/temp_repo] afterwards is exactly what the failed clone
    left behind (nothing, or its partial directory). Session, page and
    the rest of the tree are as before. *)
Theorem get_branches_clone_failure url w msg residue :
  blocked (fs w) (div WORKSPACE_DIR "temp_repo") = false →
  file_at (fs w) (div WORKSPACE_DIR "temp_repo") = None →
  git_clone env url None (Some 1) = CloneFailed msg residue →
  ∃ w',
    get_branches env url w = (Raise (Exn GitCommandError msg), w') ∧
    lookup (fs w') (div WORKSPACE_DIR "temp_repo") = residue ∧
    session w' = session w ∧ page w' = page w ∧
    (∀ q, apart (div WORKSPACE_DIR "temp_repo") q → lookup (fs w') q = lookup (fs w) q).
Proof. exact (get_branches_failed_run url w msg residue). Qed.

End BranchRuns.

Section CloneRuns.
Context (env : collaborators).

(** X4. When the destination is a regular file, [clone_repo] raises
    [NotADirectoryError] from [shutil.rmtree], clones nothing and
    leaves the world as it was. *)
Theorem clone_repo_destination_is_file url dest branch w d :
  dest ≠ [] →
  lookup (fs w) dest = Some (File d) →
  ∃ e, clone_repo env url dest branch w = (Raise e, w) ∧
       exn_cls e = NotADirectoryError.
Proof.
  intros Hd Hl. unfold clone_repo. rewrite (clear_step_file _ d) by done.
  by eexists.
Qed.

(** X5. The deletion is not undone: when the clone fails, [clone_repo]
    raises the client's [GitCommandError], and the destination holds
    what the failed clone left (nothing, or its partial directory), not
    the earlier clone. The rest of the tree is as before. *)
Theorem clone_repo_failed_clone_loses_old_content url dest branch w msg residue :
  dest ≠ [] →
  blocked (fs w) dest = false →
  file_at (fs w) dest = None →
  git_clone env url (Some branch) None = CloneFailed msg residue →
  ∃ w',
    clone_repo env url dest branch w = (Raise (Exn GitCommandError msg), w') ∧
    lookup (fs w') dest = residue ∧
    (∀ q, apart dest q → lookup (fs w') q = lookup (fs w) q).
Proof.
  intros Hd Hb Hf Hg. unfold clone_repo.
  rewrite clear_step_ok by done.
  destruct (clone_from_failed env url dest (Some branch) None msg residue
              (with_fs (cleared (fs w) dest) w))
    as (n' & Hrun & Hn'); [|by apply cleared_blocked|done|].
  { unfold occupied. cbn [fs with_fs]. by rewrite cleared_lookup. }
  unfold bind at 1. rewrite Hrun. eexists. split; [reflexivity|].
  cbn [fs with_fs] in *. destruct residue as [partial|].
  - split; [by eapply lookup_put_eq|].
    intros q Hap. rewrite (lookup_put_apart _ _ _ _ _ Hn' Hap). by apply cleared_apart.
  - subst n'. split; [by apply cleared_lookup|].
    intros q Hap. by apply cleared_apart.
Qed.

End CloneRuns.

(** X6. For a project type that is not a key of [BUILD_DIRS],
    [find_build_dir] raises [KeyError] and looks at nothing. *)
Theorem find_build_dir_unknown_type repo_path project_type w :
  project_type ≠ "UI" → project_type ≠ "Microservice" →
  ∃ e, find_build_dir repo_path project_type w = (Raise e, w) ∧
       exn_cls e = KeyError.
Proof.
  intros H1 H2. unfold find_build_dir, build_dirs, BUILD_DIRS.
  rewrite lookup_insert_ne by done. rewrite lookup_singleton_ne by done.
  by eexists.
Qed.

Lemma lookup_prefix_dir n q r c :
  lookup n (q ++ r) = Some c → r ≠ [] → is_dir n q = true.
Proof.
  rewrite lookup_app. unfold is_dir. destruct (lookup n q) as [[d|es]|]; simpl; [|done..].
  by destruct r.
Qed.

Section ArchiveEdges.
Context (env : collaborators).

Lemma write_file_is_dir zip data w es :
  lookup (fs w) zip = Some (Dir es) →
  write_file zip data w = (Raise (Exn IsADirectoryError (str zip)), w).
Proof. intros Hl. unfold write_file, bind, get_fs. cbn beta iota. by rewrite Hl. Qed.

Lemma write_file_no_parent zip data w :
  is_dir (fs w) zip = false →
  is_dir (fs w) (parent zip) = false →
  write_file zip data w
  = (Raise (Exn (if blocked (fs w) zip then NotADirectoryError else FileNotFoundError)
              (str zip)), w).
Proof.
  intros Hz Hp. unfold write_file, bind, get_fs. cbn beta iota. rewrite Hp.
  unfold is_dir in Hz.
  destruct (lookup (fs w) zip) as [[|]|]; [|done|]; by destruct (blocked (fs w) zip).
Qed.

(** X7. When the archive path is a directory, or its parent is not
    one, [zip_directory] raises an [OSError] ([IsADirectoryError],
    [NotADirectoryError] or [FileNotFoundError]) on opening the archive
    and changes nothing; the source is not read. *)
Theorem zip_directory_unwritable_archive source_dir zip_path w :
  is_dir (fs w) zip_path = true ∨ is_dir (fs w) (parent zip_path) = false →
  ∃ e, zip_directory env source_dir zip_path w = (Raise e, w) ∧
       (exn_cls e = IsADirectoryError ∨ exn_cls e = NotADirectoryError
        ∨ exn_cls e = FileNotFoundError).
Proof.
  intros Hcase. unfold zip_directory. unfold bind at 1.
  destruct (is_dir (fs w) zip_path) eqn:Hz.
  - unfold is_dir in Hz. destruct (lookup (fs w) zip_path) as [[|es]|] eqn:E; [done| |done].
    rewrite (write_file_is_dir _ _ _ es E). eexists. split; [reflexivity|]. by left.
  - destruct Hcase as [?|Hp]; [done|].
    rewrite write_file_no_parent by done. eexists. split; [reflexivity|].
    right. cbn. destruct (blocked (fs w) zip_path); [by left|by right].
Qed.

(** X8. When the source is missing or is a regular file,
    [zip_directory] does not fail: [os.walk] yields nothing, and the
    call returns after writing an archive with no member. Only the
    archive path changes. *)
Theorem zip_directory_missing_source source_dir zip_path w :
  is_dir (fs w) source_dir = false →
  is_dir (fs w) (parent zip_path) = true →
  is_dir (fs w) zip_path = false →
  ∃ w',
    zip_directory env source_dir zip_path w = (Ok (), w') ∧
    file_at (fs w') zip_path = Some (zip_container env []) ∧
    (∀ q, apart zip_path q → lookup (fs w') q = lookup (fs w) q).
Proof.
  intros Hsrc Hpar Hzip.
  assert (Hne : zip_path ≠ []).
  { intros ->. unfold parent in Hpar. simpl in Hpar. congruence. }
  destruct (path_snoc zip_path Hne) as (q & x & ->). rewrite parent_snoc in Hpar.
  assert (Hq : ∃ qs, lookup (fs w) q = Some (Dir qs)).
  { unfold is_dir in Hpar. destruct (lookup (fs w) q) as [[|qs]|]; [done| |done].
    by exists qs. }
  destruct Hq as [qs Hq].
  destruct (write_file_run (q ++ [x]) [] w q x qs) as (n1 & Hput1 & Hrun1); [done..|].
  assert (Hwalk : os_walk n1 source_dir = []).
  { unfold os_walk.
    destruct (path_trichotomy (q ++ [x]) source_dir) as [->|[Hap|[Hb|Hb]]].
    - by rewrite (lookup_put_eq _ _ _ _ Hput1).
    - rewrite (lookup_put_apart _ _ _ _ _ Hput1 Hap). unfold is_dir in Hsrc.
      by destruct (lookup (fs w) source_dir) as [[|]|].
    - exfalso. destruct Hb as (r & Hr & Hqr).
      destruct (path_snoc r Hr) as (r' & y & ->).
      rewrite app_assoc in Hqr. apply app_inj_tail in Hqr as [-> ->].
      destruct r' as [|z r'].
      + rewrite app_nil_r in Hq. unfold is_dir in Hsrc. by rewrite Hq in Hsrc.
      + by rewrite (lookup_prefix_dir _ _ _ _ Hq) in Hsrc.
    - destruct Hb as (r & Hr & ->). rewrite (lookup_put_below _ _ _ _ _ Hput1).
      by destruct r. }
  assert (Hq1 : ∃ qs1, lookup n1 q = Some (Dir qs1)).
  { pose proof (put_ancestor_dir q [x] _ _ _ Hput1) as Hd. unfold is_dir in Hd.
    destruct (lookup n1 q) as [[|qs1]|]; [by discriminate Hd| |by discriminate Hd].
    by exists qs1. }
  destruct Hq1 as [qs1 Hq1].
  destruct (write_file_run (q ++ [x]) (zip_container env []) (with_fs n1 w) q x qs1)
    as (n2 & Hput2 & Hrun2); [done|done| |].
  { unfold is_dir. cbn [fs with_fs]. by rewrite (lookup_put_eq _ _ _ _ Hput1). }
  exists (with_fs n2 w). split; [|split].
  - unfold zip_directory. unfold bind at 1. rewrite Hrun1.
    unfold bind at 1, get_fs. cbn [fs with_fs]. rewrite Hwalk. cbn [zip_walk fst snd].
    unfold bind at 1. rewrite Hrun2. by destruct w.
  - unfold file_at. cbn [fs with_fs]. by rewrite (lookup_put_eq _ _ _ _ Hput2).
  - intros p Hp. cbn [fs with_fs] in *.
    rewrite (lookup_put_apart _ _ _ _ _ Hput2 Hp).
    by rewrite (lookup_put_apart _ _ _ _ _ Hput1 Hp).
Qed.

End ArchiveEdges.



Section MemberNames.
Context (env : collaborators).


End MemberNames.

Lemma contains_app c (a b : string) :
  contains c (a +:+ b) = contains c a || contains c b.
Proof.
  induction a as [|x a IH]; [done|].
  change (String x a +:+ b) with (String x (a +:+ b)). simpl.
  by rewrite IH, orb_assoc.
Qed.

Lemma rstrip_app_sep c s : rstrip c (s +:+ String c "") = rstrip c s.
Proof.
  induction s as [|a s IH].
  - simpl. by rewrite decide_True.
  - change (String a s +:+ String c "") with (String a (s +:+ String c "")).
    cbn [rstrip]. by rewrite IH.
Qed.

Lemma dash_segment_plain (a b : string) :
  contains slash a = false → contains slash b = false →
  (a +:+ "-" +:+ b ≠ "" ∧ a +:+ "-" +:+ b ≠ "." ∧ a +:+ "-" +:+ b ≠ "..") ∧
  contains slash (a +:+ "-" +:+ b) = false.
Proof.
  intros Ha Hb. split.
  - assert (Hd : contains "-"%char (a +:+ "-" +:+ b) = true).
    { rewrite contains_app. change ("-" +:+ b) with (String "-"%char b).
      simpl. by rewrite orb_true_r. }
    repeat split; intros Heq; by rewrite Heq in Hd.
  - rewrite !contains_app, Ha, Hb. done.
Qed.

Lemma repo_path_of_single url branch :
  contains slash branch = false →
  repo_path_of url branch = ["workspace"; repo_name_of url +:+ "-" +:+ branch].
Proof.
  intros Hb. unfold repo_path_of.
  destruct (dash_segment_plain (repo_name_of url) branch) as [(? & ? & _) ?];
    [apply last_segment_no_slash|done|].
  by apply div_plain_name.
Qed.

(** X10. For every URL and every branch name without a slash, the clone
    path is a direct child of the workspace, named after the last URL
    segment and the branch; that name is not empty, not [.] or [..] and
    holds no slash, so a URL cannot steer the clone out of the
    workspace. A trailing slash on the URL changes nothing. *)
Theorem clone_path_is_child_of_workspace url branch :
  contains slash branch = false →
  repo_path_of url branch = ["workspace"; repo_name_of url +:+ "-" +:+ branch] ∧
  ((repo_name_of url +:+ "-" +:+ branch ≠ "" ∧
    repo_name_of url +:+ "-" +:+ branch ≠ "." ∧
    repo_name_of url +:+ "-" +:+ branch ≠ "..") ∧
   contains slash (repo_name_of url +:+ "-" +:+ branch) = false) ∧
  repo_path_of (url +:+ "/") branch = repo_path_of url branch.
Proof.
  intros Hb.
  split; [|split; [apply dash_segment_plain; [apply last_segment_no_slash|done]|]].
  - by apply repo_path_of_single.
  - unfold repo_path_of, repo_name_of.
    change (url +:+ "/") with (url +:+ String slash ""). by rewrite rstrip_app_sep.
Qed.

(** X11. In a working directory where [workspace] is not a regular
    file, creating the workspace succeeds, [workspace] is then a
    directory, creating it again changes nothing, and a workspace that
    was already there is left exactly as it was. Paths outside
    [workspace], the session and the page are untouched, and no leading
    part of [workspace/temp_repo] is a regular file, which is what
    [get_branches] needs of the tree above its temporary clone. *)
Theorem ensure_workspace_idempotent w :
  is_dir (fs w) [] = true →
  file_at (fs w) WORKSPACE_DIR = None →
  ∃ w',
    ensure_workspace w = (Ok (), w') ∧
    is_dir (fs w') WORKSPACE_DIR = true ∧
    ensure_workspace w' = (Ok (), w') ∧
    (is_dir (fs w) WORKSPACE_DIR = true → w' = w) ∧
    (∀ q, apart WORKSPACE_DIR q → lookup (fs w') q = lookup (fs w) q) ∧
    blocked (fs w') (div WORKSPACE_DIR "temp_repo") = false ∧
    session w' = session w ∧ page w' = page w.
Proof.
  intros Hroot Hfile.
  change WORKSPACE_DIR with ["workspace"] in *.
  change (div ["workspace"] "temp_repo") with (["workspace"] ++ ["temp_repo"]).
  unfold ensure_workspace. change WORKSPACE_DIR with ["workspace"].
  unfold mkdir_exist_ok, file_at in *.
  destruct (lookup (fs w) ["workspace"]) as [[d|es]|] eqn:E; [done| |].
  - exists w. unfold bind, get_fs. cbn beta iota. rewrite E.
    split; [done|]. split; [by unfold is_dir; rewrite E|]. split; [done|].
    split; [done|]. split; [done|]. split; [|done].
    by eapply blocked_under_dir.
  - assert (Hroot' : ∃ rs, lookup (fs w) [] = Some (Dir rs)).
    { unfold is_dir in Hroot. simpl in *. destruct (fs w) as [|rs]; [done|]. by exists rs. }
    destruct Hroot' as [rs Hrs].
    destruct (put_is_Some ["workspace"] (Dir []) (fs w)) as [n' Hput].
    { by apply (blocked_under_dir _ [] "workspace" rs). }
    exists (with_fs n' w).
    assert (Hl : lookup n' ["workspace"] = Some (Dir [])) by by eapply lookup_put_eq.
    split.
    { unfold bind, get_fs. cbn beta iota. rewrite E.
      change (parent ["workspace"]) with (@nil string). by rewrite Hroot, Hput. }
    split; [by unfold is_dir; cbn [fs with_fs]; rewrite Hl|].
    split; [by unfold bind, get_fs; cbn beta iota; cbn [fs with_fs]; rewrite Hl|].
    split; [by unfold is_dir; rewrite E|].
    split; [by intros q Hap; cbn [fs with_fs]; eapply lookup_put_apart|].
    split; [|done]. cbn [fs with_fs]. by eapply blocked_under_dir.
Qed.

(** X12. When a regular file sits at [workspace], creating the
    workspace raises [FileExistsError] and changes nothing. *)
Theorem ensure_workspace_blocked_by_file w d :
  lookup (fs w) WORKSPACE_DIR = Some (File d) →
  ∃ e, ensure_workspace w = (Raise e, w) ∧ exn_cls e = FileExistsError.
Proof.
  intros Hl. unfold ensure_workspace, mkdir_exist_ok, bind, get_fs.
  cbn beta iota. rewrite Hl. by eexists.
Qed.

Section PageSteps.
Context (env : collaborators).

Lemma main_without_fetch inp w :
  truthy (repo_url inp) && bool_decide (clicked inp = Some FetchBranches) = false →
  main env inp w
  = (if bool_decide (clicked inp = Some BuildAndPackage) then
       if negb (truthy (repo_url inp))
          || negb (truthy_opt (selection_at_build (session w) inp))
       then show no_branch_warning
       else build_and_package env (repo_url inp)
              (default "" (selection_at_build (session w) inp))
              (kind_name (project_type inp))
     else ret ())
      (with_session (session_at_build (session w) inp) w).
Proof.
  intros Hnf. destruct inp as [url click choice kind].
  destruct w as [n [branches selected] pg].
  cbn [repo_url clicked branch_choice project_type session] in *.
  unfold main. cbn [repo_url clicked branch_choice project_type].
  rewrite Hnf.
  destruct (bool_decide (click = Some BuildAndPackage));
    destruct branches as [[|b bs]|], selected as [sel|]; reflexivity.
Qed.

Lemma get_branches_keeps_session url w :
  session (get_branches env url w).2 = session w ∧
  page (get_branches env url w).2 = page w.
Proof.
  cbv [get_branches clone_from rmtree path_exists lift bind get_fs set_fs ret raise
       with_fs].
  repeat case_match; simplify_eq; done.
Qed.

Lemma session_at_build_idem s inp :
  session_at_build (session_at_build s inp) inp = session_at_build s inp.
Proof.
  destruct s as [[[|b bs]|] [sel|]]; reflexivity.
Qed.

(** X13. A run in which no button is pressed returns, adds nothing to
    the page and leaves the tree alone; it only settles the session
    (both attributes set, the selection following the selector), and a
    second such run changes nothing at all. *)
Theorem main_idle_run inp w :
  clicked inp = None →
  ∃ w',
    main env inp w = (Ok (), w') ∧
    fs w' = fs w ∧ page w' = page w ∧
    session w' = session_at_build (session w) inp ∧
    main env inp w' = (Ok (), w').
Proof.
  intros Hc.
  assert (Hnf : truthy (repo_url inp)
                && bool_decide (clicked inp = Some FetchBranches) = false).
  { rewrite Hc, bool_decide_eq_false_2 by done. apply andb_false_r. }
  exists (with_session (session_at_build (session w) inp) w).
  rewrite !main_without_fetch by done.
  rewrite Hc, bool_decide_eq_false_2 by done.
  split; [done|]. split; [done|]. split; [done|]. split; [done|].
  unfold ret, with_session. cbn [fs session page].
  by rewrite session_at_build_idem.
Qed.

End PageSteps.

Section FetchSteps.
Context (env : collaborators).

Lemma clone_repo_keeps_session url dest branch w :
  session (clone_repo env url dest branch w).2 = session w ∧
  page (clone_repo env url dest branch w).2 = page w.
Proof.
  cbv [clone_repo clone_from rmtree path_exists lift bind get_fs set_fs ret raise
       with_fs].
  repeat case_match; simplify_eq; done.
Qed.

Lemma zip_directory_keeps_session source_dir zip_path w :
  session (zip_directory env source_dir zip_path w).2 = session w ∧
  page (zip_directory env source_dir zip_path w).2 = page w.
Proof.
  cbv [zip_directory write_file bind get_fs set_fs ret raise with_fs].
  repeat case_match; simplify_eq; done.
Qed.

Lemma main_with_fetch inp w :
  truthy (repo_url inp) = true →
  clicked inp = Some FetchBranches →
  main env inp w
  = match get_branches env (repo_url inp) (with_session (session_initialised (session w)) w) with
    | (Ok bs, w1) => (Ok (), fetched bs inp w (fs w1))
    | (Raise e, w1) =>
        if bool_decide (exn_cls e = GitCommandError) then
          (Ok (),
           {| fs := fs w1;
              session := session_at_build (session w) inp;
              page := page w ++ [Message Error ("Failed to fetch branches: " +:+ exn_msg e)] |})
        else (Raise e, with_session (session_initialised (session w)) (with_fs (fs w1) w))
    end.
Proof.
  intros Hurl Hc. destruct inp as [url click choice kind].
  destruct w as [n [branches selected] pg].
  cbn [repo_url clicked branch_choice project_type session] in *. subst click.
  unfold main. cbn [repo_url clicked branch_choice project_type]. rewrite Hurl.
  rewrite (bool_decide_eq_true_2 (Some FetchBranches = Some FetchBranches)) by done.
  rewrite (bool_decide_eq_false_2 (Some FetchBranches = Some BuildAndPackage)) by done.
  cbn [andb].
  destruct branches as [bs0|], selected as [sel|];
    unfold with_session, session_initialised, fetched, session_at_build,
      selection_at_build;
    cbn [session ss_branches ss_selected_branch default from_option id fs page
         branch_choice];
    cbv [bind get_session ret assign_branches assign_selected_branch set_session
         session_branches session_selected_branch session ss_branches
         ss_selected_branch fs page raise try_except show with_fs];
    cbn beta iota;
    match goal with
    | |- context [get_branches env url ?W] =>
        pose proof (get_branches_keeps_session env url W) as [Hs Hp];
        destruct (get_branches env url W) as [[bs|e] [n1 s1 pg1]] eqn:E
    end;
    cbn [snd session page] in Hs, Hp; subst s1 pg1; cbn beta iota;
    try (destruct (bool_decide (exn_cls e = GitCommandError)));
    try reflexivity;
    try (destruct bs; reflexivity);
    try (destruct bs0; reflexivity).
Qed.

(** X14. [get_branches], [clone_repo] and [zip_directory] work on the
    tree only: whatever they do and however they end, the session and
    the page are what they were. *)
Theorem workers_touch_only_the_tree url dest branch source_dir zip_path w :
  (session (get_branches env url w).2 = session w ∧
   page (get_branches env url w).2 = page w) ∧
  (session (clone_repo env url dest branch w).2 = session w ∧
   page (clone_repo env url dest branch w).2 = page w) ∧
  (session (zip_directory env source_dir zip_path w).2 = session w ∧
   page (zip_directory env source_dir zip_path w).2 = page w).
Proof.
  split; [apply get_branches_keeps_session|].
  split; [apply clone_repo_keeps_session|apply zip_directory_keeps_session].
Qed.

End FetchSteps.

Lemma selectbox_elem_of (options : list string) choice b :
  selectbox options choice = Some b → b ∈ options.
Proof.
  unfold selectbox. destruct (options !! choice) as [o|] eqn:E.
  - intros [= <-]. by eapply list_elem_of_lookup_2.
  - destruct options; [done|]. intros [= <-]. by left.
Qed.

Section FetchAction.
Context (env : collaborators).

(** X15. Fetch action, success. With a URL entered, the fetch button
    pressed and a client that clones and lists the references, [main]
    returns; the session holds the sorted list of last segments; the
    page gains the line "Branches fetched."; the temporary clone is
    gone. When at least one reference was listed the selected branch is
    an entry of the new list; when none was, the earlier selection
    stays. *)
Theorem main_fetch_stores_branches inp w r refs :
  repo_url inp ≠ "" →
  clicked inp = Some FetchBranches →
  blocked (fs w) (div WORKSPACE_DIR "temp_repo") = false →
  file_at (fs w) (div WORKSPACE_DIR "temp_repo") = None →
  git_clone env (repo_url inp) None (Some 1) = Cloned r →
  remote_refs r = Ok refs →
  ∃ w',
    main env inp w = (Ok (), w') ∧
    ss_branches (session w') = Some (sorted_set (last_segment <$> refs)) ∧
    ss_selected_branch (session w')
    = Some (match sorted_set (last_segment <$> refs) with
            | [] => default None (ss_selected_branch (session w))
            | bs => selectbox bs (branch_choice inp)
            end) ∧
    (refs ≠ [] → ∃ b, ss_selected_branch (session w') = Some (Some b) ∧
                      b ∈ sorted_set (last_segment <$> refs)) ∧
    page w' = page w ++ [Message Success "Branches fetched."] ∧
    exists_ (fs w') (div WORKSPACE_DIR "temp_repo") = false.
Proof.
  intros Hurl Hc Hb Hf Hg Hr.
  rewrite main_with_fetch; [|by unfold truthy; rewrite bool_decide_eq_false_2|done].
  destruct (get_branches_run_ok env (repo_url inp)
              (with_session (session_initialised (session w)) w) r refs)
    as (n' & Hput & ->); [done..|].
  eexists. split; [reflexivity|]. cbn [fetched session fs with_fs with_session].
  split; [done|]. split; [done|]. split; [|split; [done|]].
  - intros Hrefs. unfold session_at_build, selection_at_build.
    cbn [ss_branches ss_selected_branch default from_option id].
    destruct (sorted_set (last_segment <$> refs)) as [|b0 bs] eqn:E.
    + exfalso. destruct refs as [|x refs]; [done|].
      assert (Hin : last_segment x ∈ sorted_set (last_segment <$> x :: refs)).
      { apply elem_of_sorted_set. rewrite fmap_cons. by left. }
      rewrite E in Hin. by apply elem_of_nil in Hin.
    + destruct (selectbox (b0 :: bs) (branch_choice inp)) as [b|] eqn:Es.
      * exists b. split; [done|]. by eapply selectbox_elem_of.
      * unfold selectbox in Es. by destruct ((b0 :: bs) !! branch_choice inp).
  - unfold exists_. by rewrite lookup_remove_eq.
Qed.

(** X16. Fetch action, failed clone. The [GitCommandError] is caught:
    [main] returns, the page gains "Failed to fetch branches: " followed
    by the client's message, and the listed branches are those of
    before. What is at [workspace/temp_repo] is what the failed clone
    left. *)
Theorem main_fetch_failure_is_shown inp w msg residue :
  repo_url inp ≠ "" →
  clicked inp = Some FetchBranches →
  blocked (fs w) (div WORKSPACE_DIR "temp_repo") = false →
  file_at (fs w) (div WORKSPACE_DIR "temp_repo") = None →
  git_clone env (repo_url inp) None (Some 1) = CloneFailed msg residue →
  ∃ w',
    main env inp w = (Ok (), w') ∧
    page w' = page w ++ [Message Error ("Failed to fetch branches: " +:+ msg)] ∧
    ss_branches (session w') = Some (default [] (ss_branches (session w))) ∧
    lookup (fs w') (div WORKSPACE_DIR "temp_repo") = residue.
Proof.
  intros Hurl Hc Hb Hf Hg.
  rewrite main_with_fetch; [|by unfold truthy; rewrite bool_decide_eq_false_2|done].
  destruct (get_branches_failed_run env (repo_url inp)
              (with_session (session_initialised (session w)) w) msg residue)
    as (w1 & -> & Hres & _); [done..|].
  cbn [exn_cls exn_msg]. rewrite bool_decide_eq_true_2 by done.
  eexists. split; [reflexivity|]. done.
Qed.

End FetchAction.

Lemma build_dirs_run kind w : build_dirs (kind_name kind) w = (Ok (candidates kind), w).
Proof. by destruct kind. Qed.

Lemma candidates_valid kind f : f ∈ candidates kind → valid_name f = true.
Proof.
  destruct kind; cbn [candidates]; rewrite !elem_of_cons, elem_of_nil;
    intros [->|[->|[->|[]]]]; reflexivity.
Qed.

Lemma kind_name_no_slash kind : contains slash (kind_name kind) = false.
Proof. by destruct kind. Qed.

Section BuildSteps.
Context (env : collaborators).

Lemma clone_repo_fs_only url dest branch w s pg :
  clone_repo env url dest branch {| fs := fs w; session := s; page := pg |}
  = ((clone_repo env url dest branch w).1,
     {| fs := fs (clone_repo env url dest branch w).2; session := s; page := pg |}).
Proof.
  destruct w as [n s0 pg0]. cbn [fs].
  cbv [clone_repo clone_from rmtree path_exists lift bind get_fs set_fs ret raise
       with_fs].
  cbn [fs session page].
  repeat (case_match; cbn [fs session page] in *; simplify_eq);
    cbn [fst snd fs]; done.
Qed.

Lemma main_build inp w branch :
  clicked inp = Some BuildAndPackage →
  repo_url inp ≠ "" →
  selection_at_build (session w) inp = Some branch →
  branch ≠ "" →
  main env inp w
  = build_and_package env (repo_url inp) branch (kind_name (project_type inp))
      (with_session (session_at_build (session w) inp) w).
Proof.
  intros Hc Hurl Hsel Hb. rewrite main_without_fetch.
  - rewrite Hc, bool_decide_eq_true_2 by done. rewrite Hsel. cbn [default from_option id].
    unfold truthy_opt, truthy. by rewrite !bool_decide_eq_false_2.
  - rewrite Hc. rewrite (bool_decide_eq_false_2 (Some BuildAndPackage = Some FetchBranches)) by done.
    apply andb_false_r.
Qed.

Lemma build_and_package_clone_step url branch kind w :
  build_and_package env url branch kind w
  = match clone_repo env url (repo_path_of url branch) branch w with
    | (Raise e, w1) =>
        (Ok (), {| fs := fs w1; session := session w;
                   page := page w ++ [cloning_line branch;
                             Message Error ("❌ Error cloning repo: " +:+ exn_msg e)] |})
    | (Ok _, w1) =>
        (show (Message Info ("🔍 Searching for build folder for " +:+ kind +:+ "...")) ;;;
         let* build_path := find_build_dir (repo_path_of url branch) kind in
         match build_path with
         | None =>
             let* folders := build_dirs kind in
             show (Message Error ("❌ No build folder found for " +:+ kind
                     +:+ ". Expected one of: " +:+ join ", " folders))
         | Some build_path =>
             let zip_filename := zip_filename_of url branch kind in
             let zip_path := div WORKSPACE_DIR zip_filename in
             zip_directory env build_path zip_path ;;;
             show (Message Success ("📦 Packaged from `" +:+ str build_path +:+ "`")) ;;;
             let* data := read_file zip_path in
             show (DownloadButton "📥 Download ZIP" data zip_filename)
         end)
          {| fs := fs w1; session := session w;
             page := page w ++ [cloning_line branch;
                                Message Success "✅ Repository cloned."] |}
    end.
Proof.
  unfold build_and_package. unfold bind at 1. unfold try_except.
  unfold bind at 1. unfold show at 1. cbn beta iota. unfold bind at 1.
  destruct w as [n s pg]. cbn [fs session page].
  rewrite (clone_repo_fs_only url (repo_path_of url branch) branch
             {| fs := n; session := s; page := pg |} s).
  destruct (clone_repo env url (repo_path_of url branch) branch
              {| fs := n; session := s; page := pg |}) as [[[]|e] [n1 s1 pg1]];
    cbn [fst snd fs]; cbv [bind show ret fs session page]; cbn beta iota;
    unfold cloning_line; rewrite <- ?app_assoc; reflexivity.
Qed.

End BuildSteps.

Lemma append_neq (s t : string) : t ≠ "" → s ≠ s +:+ t.
Proof.
  intros Ht. induction s as [|a s IH]; [intros Heq; by apply Ht|].
  change (String a s +:+ t) with (String a (s +:+ t)). by intros [= ?].
Qed.

Lemma clone_dir_is_not_the_archive url branch kind :
  repo_name_of url +:+ "-" +:+ branch ≠ zip_filename_of url branch kind.
Proof.
  unfold zip_filename_of. intros Heq.
  apply String.app_inj in Heq. apply (String.app_inj "-") in Heq.
  by apply append_neq in Heq.
Qed.

Section BuildAction.
Context (env : collaborators).

(** X17. Build action, failed clone. Whatever exception [clone_repo]
    raises, [main] catches it and returns: the page gains the cloning
    line and "❌ Error cloning repo: " followed by the exception's text,
    and the tree is as [clone_repo] left it, so nothing is located and
    no archive is written. *)
Theorem main_build_clone_failure_is_shown inp w branch e w1 :
  clicked inp = Some BuildAndPackage →
  repo_url inp ≠ "" →
  selection_at_build (session w) inp = Some branch →
  branch ≠ "" →
  clone_repo env (repo_url inp) (repo_path_of (repo_url inp) branch) branch w
  = (Raise e, w1) →
  ∃ w',
    main env inp w = (Ok (), w') ∧
    fs w' = fs w1 ∧
    page w' = page w ++ [Message Info ("Cloning `" +:+ branch +:+ "`...");
                         Message Error ("❌ Error cloning repo: " +:+ exn_msg e)].
Proof.
  intros Hc Hurl Hsel Hb Hclone.
  rewrite (main_build env inp w branch) by done.
  rewrite build_and_package_clone_step.
  destruct w as [n s pg]. unfold with_session. cbn [fs session page].
  rewrite (clone_repo_fs_only env _ _ _ {| fs := n; session := s; page := pg |}).
  rewrite Hclone. cbn [fst snd]. eexists. split; [reflexivity|]. done.
Qed.

(** X18. Build action, no build folder. When the clone succeeds and
    no candidate of the project type is a directory of the clone, [main]
    returns, the tree is as the clone left it (no archive), and the page
    ends with the error line that names the type and lists its
    candidates separated by ", ". *)
Theorem main_build_no_folder_is_shown inp w branch w1 :
  clicked inp = Some BuildAndPackage →
  repo_url inp ≠ "" →
  selection_at_build (session w) inp = Some branch →
  branch ≠ "" →
  clone_repo env (repo_url inp) (repo_path_of (repo_url inp) branch) branch w
  = (Ok (), w1) →
  (∀ f, f ∈ candidates (project_type inp) →
        is_dir (fs w1) (div (repo_path_of (repo_url inp) branch) f) = false) →
  ∃ w',
    main env inp w = (Ok (), w') ∧
    fs w' = fs w1 ∧
    page w' = page w ++
      [Message Info ("Cloning `" +:+ branch +:+ "`...");
       Message Success "✅ Repository cloned.";
       Message Info ("🔍 Searching for build folder for "
                     +:+ kind_name (project_type inp) +:+ "...");
       Message Error ("❌ No build folder found for " +:+ kind_name (project_type inp)
                      +:+ ". Expected one of: "
                      +:+ join ", " (candidates (project_type inp)))].
Proof.
  intros Hc Hurl Hsel Hb Hclone Hnone.
  rewrite (main_build env inp w branch) by done.
  rewrite build_and_package_clone_step.
  destruct w as [n s pg]. unfold with_session. cbn [fs session page].
  rewrite (clone_repo_fs_only env _ _ _ {| fs := n; session := s; page := pg |}).
  rewrite Hclone. cbn [fst snd].
  unfold bind at 1. unfold show at 1. cbn beta iota. cbn [fs session page].
  unfold bind at 1. unfold find_build_dir. unfold bind at 1.
  rewrite build_dirs_run.
  match goal with
  | |- context [first_build_dir ?p ?l ?W] =>
      destruct (first_build_dir_run p l W) as (r & -> & Hr)
  end.
  destruct r as [c|].
  - exfalso. destruct Hr as (i & f & Hi & -> & Hd & _). cbn [fs] in Hd.
    rewrite Hnone in Hd; [done|]. by eapply list_elem_of_lookup_2.
  - unfold bind at 1. rewrite build_dirs_run. unfold show.
    eexists. split; [reflexivity|]. cbn [fs page]. split; [done|].
    by rewrite <- !app_assoc.
Qed.

Lemma first_unencodable (L : list (path * list byte)) :
  forallb (λ f, utf8_valid (str f.1)) L = false →
  ∃ k f,
    L !! k = Some f ∧ utf8_valid (str f.1) = false ∧
    Forall (λ g, utf8_valid (str g.1) = true) (take k L) ∧
    ∀ acc, write_all env L acc
           = (acc ++ (member_of env <$> take k L),
              Some (Exn UnicodeEncodeError (str f.1))).
Proof.
  induction L as [|g L IH]; [done|]. cbn [forallb].
  destruct (utf8_valid (str g.1)) eqn:Hg; cbn [andb].
  - intros (k & f & Hk & Hf & Hbefore & Hrun)%IH.
    exists (S k), f. split; [done|]. split; [done|]. split.
    + cbn [take]. by constructor.
    + intros acc. cbn [write_all take fmap list_fmap]. rewrite Hg, Hrun.
      by rewrite <- app_assoc.
  - intros _. exists 0, g. split; [done|]. split; [done|]. split; [constructor|].
    intros acc. cbn [write_all take fmap list_fmap]. by rewrite Hg, app_nil_r.
Qed.

(** The build action up to the end of the packaging, for a selected
    branch without a slash, a clone that succeeds, [f] the first
    candidate that is a directory of the clone, that directory
    well-formed, and no directory at the archive path: the archive holds
    what the walk wrote, the clone is untouched by the packaging, and
    [main] ends as the walk did. *)
Lemma main_build_packaging inp w branch w1 i f es :
  clicked inp = Some BuildAndPackage →
  repo_url inp ≠ "" →
  selection_at_build (session w) inp = Some branch →
  branch ≠ "" →
  contains slash branch = false →
  clone_repo env (repo_url inp) (repo_path_of (repo_url inp) branch) branch w
  = (Ok (), w1) →
  candidates (project_type inp) !! i = Some f →
  (∀ j g, j < i → candidates (project_type inp) !! j = Some g →
          is_dir (fs w1) (repo_path_of (repo_url inp) branch ++ [g]) = false) →
  lookup (fs w1) (repo_path_of (repo_url inp) branch ++ [f]) = Some (Dir es) →
  wf (Dir es) = true →
  is_dir (fs w1)
    (div WORKSPACE_DIR (zip_filename_of (repo_url inp) branch
                          (kind_name (project_type inp)))) = false →
  ∃ n2,
    file_at n2
      (div WORKSPACE_DIR (zip_filename_of (repo_url inp) branch
                            (kind_name (project_type inp))))
    = Some (zip_container env (write_all env (files_under [] (Dir es)) []).1) ∧
    lookup n2 (repo_path_of (repo_url inp) branch)
    = lookup (fs w1) (repo_path_of (repo_url inp) branch) ∧
    main env inp w
    = match (write_all env (files_under [] (Dir es)) []).2 with
      | None =>
          (Ok (),
           {| fs := n2; session := session_at_build (session w) inp;
              page := page w ++
                [Message Info ("Cloning `" +:+ branch +:+ "`...");
                 Message Success "✅ Repository cloned.";
                 Message Info ("🔍 Searching for build folder for "
                               +:+ kind_name (project_type inp) +:+ "...");
                 Message Success ("📦 Packaged from `"
                   +:+ str (repo_path_of (repo_url inp) branch ++ [f]) +:+ "`");
                 DownloadButton "📥 Download ZIP"
                   (zip_container env (write_all env (files_under [] (Dir es)) []).1)
                   (zip_filename_of (repo_url inp) branch
                      (kind_name (project_type inp)))] |})
      | Some e =>
          (Raise e,
           {| fs := n2; session := session_at_build (session w) inp;
              page := page w ++
                [Message Info ("Cloning `" +:+ branch +:+ "`...");
                 Message Success "✅ Repository cloned.";
                 Message Info ("🔍 Searching for build folder for "
                               +:+ kind_name (project_type inp) +:+ "...")] |})
      end.
Proof.
  intros Hc Hurl Hsel Hb Hns Hclone Hi Hfirst Hsrc Hwf Hzip.
  pose proof (repo_path_of_single (repo_url inp) branch Hns) as Hrp.
  assert (Hzp : div WORKSPACE_DIR (zip_filename_of (repo_url inp) branch
                  (kind_name (project_type inp)))
                = ["workspace"; zip_filename_of (repo_url inp) branch
                                  (kind_name (project_type inp))]).
  { unfold zip_filename_of.
    destruct (dash_segment_plain (repo_name_of (repo_url inp))
                (branch +:+ "-" +:+ kind_name (project_type inp) +:+ ".zip"))
      as [(? & ? & _) ?]; [apply last_segment_no_slash| |by apply div_plain_name].
    rewrite !contains_app, Hns, kind_name_no_slash. done. }
  set (zipname := zip_filename_of (repo_url inp) branch (kind_name (project_type inp))) in *.
  set (rp := repo_path_of (repo_url inp) branch) in *.
  rewrite Hzp in *.
  rewrite (main_build env inp w branch) by done.
  rewrite build_and_package_clone_step. fold rp. fold zipname.
  destruct w as [n s pg]. unfold with_session. cbn [fs session page].
  rewrite (clone_repo_fs_only env _ _ _ {| fs := n; session := s; page := pg |}).
  rewrite Hclone. cbn [fst snd].
  unfold bind at 1. unfold show at 1. cbn beta iota. cbn [fs session page].
  unfold bind at 1. unfold find_build_dir. unfold bind at 1.
  rewrite build_dirs_run.
  match goal with
  | |- context [first_build_dir ?p ?l ?W] =>
      destruct (first_build_dir_run p l W) as (r & -> & Hr)
  end.
  assert (Hdivs : ∀ g, g ∈ candidates (project_type inp) → div rp g = rp ++ [g]).
  { intros g Hg. apply div_valid_name. by eapply candidates_valid. }
  assert (Hfd : is_dir (fs w1) (rp ++ [f]) = true) by (unfold is_dir; by rewrite Hsrc).
  assert (Hr' : r = Some (rp ++ [f])).
  { destruct r as [c|]; cbn [fs] in Hr.
    - destruct Hr as (i' & f' & Hi' & -> & Hd & Hbefore).
      rewrite Hdivs in Hd |- * by (by eapply list_elem_of_lookup_2).
      destruct (lt_eq_lt_dec i i') as [[Hlt|<-]|Hgt].
      + specialize (Hbefore i f Hlt Hi).
        rewrite Hdivs in Hbefore by (by eapply list_elem_of_lookup_2). congruence.
      + congruence.
      + specialize (Hfirst i' f' Hgt Hi'). congruence.
    - specialize (Hr f (list_elem_of_lookup_2 _ _ _ Hi)).
      rewrite Hdivs in Hr by (by eapply list_elem_of_lookup_2). congruence. }
  subst r. unfold bind at 1. cbn beta iota zeta. fold zipname. rewrite Hzp.
  match goal with
  | |- context [zip_directory env ?src ?zp ?W] =>
      destruct (zip_directory_run env src zp W es) as (n2 & Hrun & Hfile & Hframe)
  end; cbn [fs]; [done|done| | | |].
  { change (parent ["workspace"; zipname]) with ["workspace"].
    rewrite Hrp in Hsrc. cbn [app] in Hsrc.
    by apply (lookup_prefix_dir _ ["workspace"] [_; f] _ Hsrc). }
  { done. }
  { rewrite Hrp. intros Hpre%prefix_length. simpl in Hpre. lia. }
  exists n2. split; [done|]. split.
  { apply Hframe. rewrite Hrp. split; intros Hpre.
    + apply prefix_cons_inv_2, prefix_cons_inv_1 in Hpre.
      by apply (clone_dir_is_not_the_archive (repo_url inp) branch
                  (kind_name (project_type inp))).
    + apply prefix_cons_inv_2, prefix_cons_inv_1 in Hpre.
      by apply (clone_dir_is_not_the_archive (repo_url inp) branch
                  (kind_name (project_type inp))). }
  rewrite Hrun. clear Hrun.
  destruct (write_all env (files_under [] (Dir es)) []) as [acc [e|]];
    cbn [fst snd] in *.
  { unfold cloning_line. cbn [with_fs fs session page].
    by rewrite <- !app_assoc. }
  unfold bind at 1, show at 1. cbn beta iota.
  unfold bind at 1, read_file, bind at 1, get_fs. cbn beta iota. cbn [fs with_fs].
  unfold file_at in Hfile.
  destruct (lookup n2 ["workspace"; zipname]) as [[d|]|] eqn:Ez; [|done..].
  injection Hfile as ->. unfold ret, show. cbn [with_fs fs session page].
  unfold cloning_line. by rewrite <- !app_assoc.
Qed.


(** X20. Build action, a name that cannot be encoded. Under the same
    conditions but with a regular file in the build folder whose
    relative path is not valid UTF-8, the packaging stops at the first
    such file, in walk order: [UnicodeEncodeError] leaves [main], no
    error line and no download button is shown, and the archive left
    at [workspace/<repo>-<branch>-<type>.zip] holds the files walked
    before that one only. *)
Theorem main_build_unencodable_name_escapes inp w branch w1 i f es :
  clicked inp = Some BuildAndPackage →
  repo_url inp ≠ "" →
  selection_at_build (session w) inp = Some branch →
  branch ≠ "" →
  contains slash branch = false →
  clone_repo env (repo_url inp) (repo_path_of (repo_url inp) branch) branch w
  = (Ok (), w1) →
  candidates (project_type inp) !! i = Some f →
  (∀ j g, j < i → candidates (project_type inp) !! j = Some g →
          is_dir (fs w1) (repo_path_of (repo_url inp) branch ++ [g]) = false) →
  lookup (fs w1) (repo_path_of (repo_url inp) branch ++ [f]) = Some (Dir es) →
  wf (Dir es) = true →
  names_encodable (Dir es) = false →
  is_dir (fs w1)
    (div WORKSPACE_DIR (zip_filename_of (repo_url inp) branch
                          (kind_name (project_type inp)))) = false →
  ∃ e w' k bad,
    main env inp w = (Raise e, w') ∧
    exn_cls e = UnicodeEncodeError ∧
    files_under [] (Dir es) !! k = Some bad ∧
    utf8_valid (str bad.1) = false ∧
    Forall (λ g, utf8_valid (str g.1) = true) (take k (files_under [] (Dir es))) ∧
    file_at (fs w')
      (div WORKSPACE_DIR (zip_filename_of (repo_url inp) branch
                            (kind_name (project_type inp))))
    = Some (zip_container env (member_of env <$> take k (files_under [] (Dir es)))) ∧
    page w' = page w ++
      [Message Info ("Cloning `" +:+ branch +:+ "`...");
       Message Success "✅ Repository cloned.";
       Message Info ("🔍 Searching for build folder for "
                     +:+ kind_name (project_type inp) +:+ "...")].
Proof.
  intros Hc Hurl Hsel Hb Hns Hclone Hi Hfirst Hsrc Hwf Henc Hzip.
  destruct (main_build_packaging inp w branch w1 i f es)
    as (n2 & Hfile & Hkeep & Hrun); [done..|].
  destruct (first_unencodable (files_under [] (Dir es)) Henc)
    as (k & bad & Hk & Hbad & Hbefore & Hwrite).
  rewrite Hwrite in Hrun, Hfile. cbn [fst snd app] in Hrun, Hfile.
  eexists _, _, k, bad. split; [exact Hrun|]. done.
Qed.

End BuildAction.

(** *** The further facts at the sample worlds *)

Lemma get_branches_sorted_and_tidy_witness :
  ∃ bs w',
    get_branches Demo.demo_client Demo.demo_url Demo.empty_workspace = (Ok bs, w') ∧
    StronglySorted String.le bs ∧
    (∀ i j a b, i < j → bs !! i = Some a → bs !! j = Some b → a ≠ b) ∧
    session w' = session Demo.empty_workspace ∧
    page w' = page Demo.empty_workspace ∧
    exists_ (fs w') (div WORKSPACE_DIR "temp_repo") = false ∧
    (∀ q, apart (div WORKSPACE_DIR "temp_repo") q →
          lookup (fs w') q = lookup (fs Demo.empty_workspace) q).
Proof.
  apply (get_branches_sorted_and_tidy Demo.demo_client Demo.demo_url
           Demo.empty_workspace
           {| worktree := Demo.demo_worktree; remote_refs := Ok Demo.demo_refs |}
           Demo.demo_refs); reflexivity.
Defined.

Lemma get_branches_temp_repo_is_file_witness :
  ∃ e, get_branches Demo.demo_client Demo.demo_url Demo.temp_repo_is_a_file
       = (Raise e, Demo.temp_repo_is_a_file) ∧
       exn_cls e = NotADirectoryError.
Proof.
  apply (get_branches_temp_repo_is_file Demo.demo_client Demo.demo_url
           Demo.temp_repo_is_a_file []); reflexivity.
Defined.

Lemma get_branches_clone_failure_witness :
  ∃ w',
    get_branches Demo.demo_client Demo.down_url Demo.empty_workspace
    = (Raise (Exn GitCommandError "fatal: unable to access the remote"), w') ∧
    lookup (fs w') (div WORKSPACE_DIR "temp_repo") = None ∧
    session w' = session Demo.empty_workspace ∧
    page w' = page Demo.empty_workspace ∧
    (∀ q, apart (div WORKSPACE_DIR "temp_repo") q →
          lookup (fs w') q = lookup (fs Demo.empty_workspace) q).
Proof.
  apply (get_branches_clone_failure Demo.demo_client Demo.down_url
           Demo.empty_workspace "fatal: unable to access the remote" None);
    reflexivity.
Defined.

Lemma clone_repo_destination_is_file_witness :
  ∃ e, clone_repo Demo.demo_client Demo.demo_url ["workspace"; "demo.git-main"]
         "main" Demo.clone_path_is_a_file
       = (Raise e, Demo.clone_path_is_a_file) ∧
       exn_cls e = NotADirectoryError.
Proof.
  apply (clone_repo_destination_is_file Demo.demo_client Demo.demo_url
           ["workspace"; "demo.git-main"] "main" Demo.clone_path_is_a_file [x78]);
    [discriminate | reflexivity].
Defined.

Lemma clone_repo_failed_clone_loses_old_content_witness :
  ∃ w',
    clone_repo Demo.demo_client Demo.down_url ["workspace"; "demo.git-main"] "main"
      Demo.stale_clone
    = (Raise (Exn GitCommandError "fatal: unable to access the remote"), w') ∧
    lookup (fs w') ["workspace"; "demo.git-main"] = None ∧
    (∀ q, apart ["workspace"; "demo.git-main"] q →
          lookup (fs w') q = lookup (fs Demo.stale_clone) q).
Proof.
  apply (clone_repo_failed_clone_loses_old_content Demo.demo_client Demo.down_url
           ["workspace"; "demo.git-main"] "main" Demo.stale_clone
           "fatal: unable to access the remote" None);
    [discriminate | reflexivity | reflexivity | reflexivity].
Defined.

Lemma find_build_dir_unknown_type_witness :
  ∃ e, find_build_dir ["repo"] "Library" Demo.dist_and_out
       = (Raise e, Demo.dist_and_out) ∧
       exn_cls e = KeyError.
Proof.
  apply (find_build_dir_unknown_type ["repo"] "Library" Demo.dist_and_out);
    discriminate.
Defined.

Lemma zip_directory_unwritable_archive_witness :
  ∃ e,
    zip_directory Demo.demo_client ["workspace"; "demo.git-main"; "build"]
      ["workspace"; "demo.git-main-UI.zip"] Demo.archive_path_taken
    = (Raise e, Demo.archive_path_taken) ∧
    (exn_cls e = IsADirectoryError ∨ exn_cls e = NotADirectoryError
     ∨ exn_cls e = FileNotFoundError).
Proof.
  apply (zip_directory_unwritable_archive Demo.demo_client
           ["workspace"; "demo.git-main"; "build"]
           ["workspace"; "demo.git-main-UI.zip"] Demo.archive_path_taken).
  left. reflexivity.
Defined.

Lemma zip_directory_missing_source_witness :
  ∃ w',
    zip_directory Demo.demo_client ["workspace"; "nowhere"] ["workspace"; "a.zip"]
      Demo.empty_workspace = (Ok (), w') ∧
    file_at (fs w') ["workspace"; "a.zip"] = Some (zip_container Demo.demo_client []) ∧
    (∀ q, apart ["workspace"; "a.zip"] q →
          lookup (fs w') q = lookup (fs Demo.empty_workspace) q).
Proof.
  apply (zip_directory_missing_source Demo.demo_client ["workspace"; "nowhere"]
           ["workspace"; "a.zip"] Demo.empty_workspace); reflexivity.
Defined.


Lemma clone_path_is_child_of_workspace_witness :
  repo_path_of Demo.demo_url "main"
  = ["workspace"; repo_name_of Demo.demo_url +:+ "-" +:+ "main"] ∧
  ((repo_name_of Demo.demo_url +:+ "-" +:+ "main" ≠ "" ∧
    repo_name_of Demo.demo_url +:+ "-" +:+ "main" ≠ "." ∧
    repo_name_of Demo.demo_url +:+ "-" +:+ "main" ≠ "..") ∧
   contains slash (repo_name_of Demo.demo_url +:+ "-" +:+ "main") = false) ∧
  repo_path_of (Demo.demo_url +:+ "/") "main" = repo_path_of Demo.demo_url "main".
Proof.
  apply (clone_path_is_child_of_workspace Demo.demo_url "main"). reflexivity.
Defined.

Lemma ensure_workspace_idempotent_witness :
  ∃ w',
    ensure_workspace Demo.no_workspace = (Ok (), w') ∧
    is_dir (fs w') WORKSPACE_DIR = true ∧
    ensure_workspace w' = (Ok (), w') ∧
    (is_dir (fs Demo.no_workspace) WORKSPACE_DIR = true → w' = Demo.no_workspace) ∧
    (∀ q, apart WORKSPACE_DIR q → lookup (fs w') q = lookup (fs Demo.no_workspace) q) ∧
    blocked (fs w') (div WORKSPACE_DIR "temp_repo") = false ∧
    session w' = session Demo.no_workspace ∧ page w' = page Demo.no_workspace.
Proof.
  apply (ensure_workspace_idempotent Demo.no_workspace); reflexivity.
Defined.

Lemma ensure_workspace_blocked_by_file_witness :
  ∃ e, ensure_workspace Demo.workspace_is_a_file = (Raise e, Demo.workspace_is_a_file) ∧
       exn_cls e = FileExistsError.
Proof.
  apply (ensure_workspace_blocked_by_file Demo.workspace_is_a_file []). reflexivity.
Defined.

Lemma main_idle_run_witness :
  ∃ w',
    main Demo.demo_client Demo.no_click Demo.empty_workspace = (Ok (), w') ∧
    fs w' = fs Demo.empty_workspace ∧ page w' = page Demo.empty_workspace ∧
    session w' = session_at_build (session Demo.empty_workspace) Demo.no_click ∧
    main Demo.demo_client Demo.no_click w' = (Ok (), w').
Proof.
  apply (main_idle_run Demo.demo_client Demo.no_click Demo.empty_workspace).
  reflexivity.
Defined.

Lemma main_fetch_stores_branches_witness :
  ∃ w',
    main Demo.demo_client Demo.fetch_click Demo.empty_workspace = (Ok (), w') ∧
    ss_branches (session w') = Some (sorted_set (last_segment <$> Demo.demo_refs)) ∧
    ss_selected_branch (session w')
    = Some (match sorted_set (last_segment <$> Demo.demo_refs) with
            | [] => default None (ss_selected_branch (session Demo.empty_workspace))
            | bs => selectbox bs (branch_choice Demo.fetch_click)
            end) ∧
    (Demo.demo_refs ≠ [] →
     ∃ b, ss_selected_branch (session w') = Some (Some b) ∧
          b ∈ sorted_set (last_segment <$> Demo.demo_refs)) ∧
    page w' = page Demo.empty_workspace ++ [Message Success "Branches fetched."] ∧
    exists_ (fs w') (div WORKSPACE_DIR "temp_repo") = false.
Proof.
  apply (main_fetch_stores_branches Demo.demo_client Demo.fetch_click
           Demo.empty_workspace
           {| worktree := Demo.demo_worktree; remote_refs := Ok Demo.demo_refs |}
           Demo.demo_refs);
    [discriminate | reflexivity | reflexivity | reflexivity | reflexivity
    | reflexivity].
Defined.

Lemma main_fetch_failure_is_shown_witness :
  ∃ w',
    main Demo.demo_client Demo.fetch_click_down Demo.empty_workspace = (Ok (), w') ∧
    page w' = page Demo.empty_workspace ++
      [Message Error ("Failed to fetch branches: "
                      +:+ "fatal: unable to access the remote")] ∧
    ss_branches (session w')
    = Some (default [] (ss_branches (session Demo.empty_workspace))) ∧
    lookup (fs w') (div WORKSPACE_DIR "temp_repo") = None.
Proof.
  apply (main_fetch_failure_is_shown Demo.demo_client Demo.fetch_click_down
           Demo.empty_workspace "fatal: unable to access the remote" None);
    [discriminate | reflexivity | reflexivity | reflexivity | reflexivity].
Defined.

Lemma main_build_clone_failure_is_shown_witness :
  ∃ w',
    main Demo.demo_client Demo.build_click_down Demo.stale_clone = (Ok (), w') ∧
    fs w' = fs (clone_repo Demo.demo_client Demo.down_url
                  (repo_path_of Demo.down_url "main") "main" Demo.stale_clone).2 ∧
    page w' = page Demo.stale_clone ++
      [Message Info ("Cloning `" +:+ "main" +:+ "`...");
       Message Error ("❌ Error cloning repo: "
                      +:+ exn_msg (Exn GitCommandError
                                     "fatal: unable to access the remote"))].
Proof.
  apply (main_build_clone_failure_is_shown Demo.demo_client Demo.build_click_down
           Demo.stale_clone "main"
           (Exn GitCommandError "fatal: unable to access the remote")
           (clone_repo Demo.demo_client Demo.down_url
              (repo_path_of Demo.down_url "main") "main" Demo.stale_clone).2);
    [reflexivity | discriminate | reflexivity | discriminate | by vm_compute].
Defined.

Lemma main_build_no_folder_is_shown_witness :
  ∃ w',
    main Demo.demo_client Demo.build_click_microservice Demo.stale_clone = (Ok (), w') ∧
    fs w' = fs (clone_repo Demo.demo_client Demo.demo_url
                  (repo_path_of Demo.demo_url "main") "main" Demo.stale_clone).2 ∧
    page w' = page Demo.stale_clone ++
      [Message Info ("Cloning `" +:+ "main" +:+ "`...");
       Message Success "✅ Repository cloned.";
       Message Info ("🔍 Searching for build folder for "
                     +:+ kind_name (project_type Demo.build_click_microservice)
                     +:+ "...");
       Message Error ("❌ No build folder found for "
                      +:+ kind_name (project_type Demo.build_click_microservice)
                      +:+ ". Expected one of: "
                      +:+ join ", " (candidates (project_type Demo.build_click_microservice)))].
Proof.
  apply (main_build_no_folder_is_shown Demo.demo_client
           Demo.build_click_microservice Demo.stale_clone "main"
           (clone_repo Demo.demo_client Demo.demo_url
              (repo_path_of Demo.demo_url "main") "main" Demo.stale_clone).2);
    [reflexivity | discriminate | reflexivity | discriminate | by vm_compute |].
  intros f Hf. cbn [candidates project_type Demo.build_click_microservice] in Hf.
  rewrite !elem_of_cons, elem_of_nil in Hf.
  destruct Hf as [-> | [-> | [-> | []]]]; by vm_compute.
Defined.


Lemma main_build_unencodable_name_escapes_witness :
  ∃ e w' k bad,
    main Demo.odd_client Demo.build_click Demo.stale_clone = (Raise e, w') ∧
    exn_cls e = UnicodeEncodeError ∧
    files_under [] (Dir Demo.odd_tree) !! k = Some bad ∧
    utf8_valid (str bad.1) = false ∧
    Forall (λ g, utf8_valid (str g.1) = true)
      (take k (files_under [] (Dir Demo.odd_tree))) ∧
    file_at (fs w')
      (div WORKSPACE_DIR (zip_filename_of (repo_url Demo.build_click) "main"
                            (kind_name (project_type Demo.build_click))))
    = Some (zip_container Demo.odd_client
              (member_of Demo.odd_client <$> take k (files_under [] (Dir Demo.odd_tree)))) ∧
    page w' = page Demo.stale_clone ++
      [Message Info ("Cloning `" +:+ "main" +:+ "`...");
       Message Success "✅ Repository cloned.";
       Message Info ("🔍 Searching for build folder for "
                     +:+ kind_name (project_type Demo.build_click) +:+ "...")].
Proof.
  apply (main_build_unencodable_name_escapes Demo.odd_client Demo.build_click
           Demo.stale_clone "main"
           (clone_repo Demo.odd_client Demo.demo_url
              (repo_path_of Demo.demo_url "main") "main" Demo.stale_clone).2
           0 "build" Demo.odd_tree);
    [reflexivity | discriminate | reflexivity | discriminate | reflexivity
    | by vm_compute | reflexivity | | by vm_compute | by vm_compute
    | by vm_compute | by vm_compute].
  intros j g Hj. lia.
Defined.

End AppFacts.
